(** * SpeechService: credential cache, submission, polling and cleanup

    A shallow embedding of [AI/app/services/speech_service.py].  The class
    [SpeechService] talks to three remote endpoints (token, submit, query),
    keeps one cached credential, and removes the transcoded file when the
    pipeline ends.  Methods become state-and-exception passing functions
    over a [world]; the remote side, the encoder and the identifier
    generator are parameters of the development. *)

From Stdlib Require Import ZArith Lia Bool Ascii String List.
From stdpp Require Import base strings list gmap.
Open Scope Z_scope.
Set Warnings "-register-all".

(** ** Values exchanged with the remote side

    [response.json()] yields a Python value built from JSON.  Numbers are
    kept as integers; object fields are an association list read from the
    left. *)

Inductive json : Type :=
| JNull
| JBool (b : bool)
| JNum (n : Z)
| JStr (s : string)
| JArr (items : list json)
| JObj (fields : list (string * json)).

(** ** Exceptions

    One constructor per kind of failure.  The constructors in the second
    group are the [raise Exception(f"...")] sites of the service, carrying
    the value interpolated into the message; a wrapped cause stands for
    [str(e)]. *)

Inductive exn : Type :=
| RequestError (detail : string)     (* requests: connection, HTTP status, undecodable body *)
| TypeError
| AttributeError
| KeyError (key : string)
| ValueError
| OverflowError
| FileNotFoundError (path : string)
| CodecError (detail : string)       (* pydub: decoding or exporting failed *)
| TokenRejected (error_msg : json)   (* "Failed to get access_token: {error_msg}" *)
| TokenError (cause : exn)           (* "Error getting access_token: {e}" *)
| ConversionError (cause : exn)      (* "Audio conversion failed: {e}" *)
| UploadRejected (error_msg : json)  (* "Upload failed: {error_msg}" *)
| UploadError (cause : exn)          (* "Voice upload error: {e}" *)
| RecognitionError (error_msg : json) (* "Recognition error: {error_msg}" *)
| QueryFailed (max_retries : Z) (cause : exn)
                                     (* "Failed to get recognition result after {max_retries} attempts: {e}" *)
| MaxRetriesExceeded                 (* "Max retries exceeded without getting result" *)
| SpeechError (cause : exn).         (* "Speech recognition failed: {e}" *)

Inductive completion (A : Type) : Type :=
| Ok (a : A)
| Raise (e : exn).
Arguments Ok {A} a.
Arguments Raise {A} e.

Definition completion_bind {A B} (r : completion A) (k : A -> completion B) : completion B :=
  match r with
  | Ok a => k a
  | Raise e => Raise e
  end.

Notation "'let*' x ':=' r 'in' k" := (completion_bind r (fun x => k))
  (at level 10, x name, r at level 100, k at level 200).

(** ** The Python operations the service applies to those values *)

Module Py.

Definition lower_ascii (c : ascii) : ascii :=
  let n := nat_of_ascii c in
  if ((65 <=? n) && (n <=? 90))%nat then ascii_of_nat (n + 32) else c.

(** [s.lower()], on the ASCII letters. *)
Fixpoint lower (s : string) : string :=
  match s with
  | EmptyString => EmptyString
  | String c rest => String (lower_ascii c) (lower rest)
  end.

(** [needle in hay] on strings: substring test. *)
Fixpoint contains (needle hay : string) : bool :=
  String.prefix needle hay ||
  match hay with
  | EmptyString => false
  | String _ rest => contains needle rest
  end.

Fixpoint assoc (key : string) (fields : list (string * json)) : option json :=
  match fields with
  | [] => None
  | (k, v) :: rest => if String.eqb k key then Some v else assoc key rest
  end.

(** Truth value of an object in a condition. *)
Definition truthy (v : json) : bool :=
  match v with
  | JNull => false
  | JBool b => b
  | JNum n => negb (n =? 0)
  | JStr s => negb (String.eqb s EmptyString)
  | JArr items => match items with [] => false | _ => true end
  | JObj fields => match fields with [] => false | _ => true end
  end.

(** [key in c]. *)
Definition has_key (key : string) (c : json) : completion bool :=
  match c with
  | JObj fields => Ok (match assoc key fields with Some _ => true | None => false end)
  | JArr items =>
      Ok (existsb (fun x => match x with JStr s => String.eqb s key | _ => false end) items)
  | JStr s => Ok (contains key s)
  | _ => Raise TypeError
  end.

(** [c[key]] with a string key. *)
Definition getitem (c : json) (key : string) : completion json :=
  match c with
  | JObj fields =>
      match assoc key fields with Some v => Ok v | None => Raise (KeyError key) end
  | _ => Raise TypeError
  end.

(** [c.get(key, default)]; only dictionaries have the method. *)
Definition get (c : json) (key : string) (default : json) : completion json :=
  match c with
  | JObj fields =>
      match assoc key fields with Some v => Ok v | None => Ok default end
  | _ => Raise AttributeError
  end.

(** [v == 0]. *)
Definition eq_zero (v : json) : bool :=
  match v with
  | JNum n => n =? 0
  | JBool b => negb b
  | _ => false
  end.

(** The double nearest to the integer [n], ties to even: integers below
    2^53 in magnitude are kept, larger ones keep 53 significant bits. *)
Definition round_double (n : Z) : Z :=
  let a := Z.abs n in
  if a <? 2 ^ 53 then n
  else
    let e := Z.log2 a - 52 in
    let q := Z.shiftr a e in
    let r := Z.land a (Z.ones e) in
    let half := 2 ^ (e - 1) in
    let q' := if (half <? r) || ((r =? half) && Z.odd q) then q + 1 else q in
    Z.sgn n * Z.shiftl q' e.

(** [float(n)]: an integer that rounds past the largest double is
    refused. *)
Definition float_of_int (n : Z) : completion Z :=
  let x := round_double n in
  if 2 ^ 1024 <=? Z.abs x then Raise OverflowError else Ok x.

(** [t + v] for a timestamp [t], which is a double: an integer [v] is
    converted to a double first, and the sum is rounded to a double.
    Clock readings are far from the largest double, so the sum itself
    stays finite. *)
Definition add (t : Z) (v : json) : completion Z :=
  match v with
  | JNum n => let* x := float_of_int n in Ok (round_double (t + x))
  | JBool b => Ok (round_double (t + (if b then 1 else 0)))
  | _ => Raise TypeError
  end.

(** [v.lower()]; only strings have the method. *)
Definition str_lower (v : json) : completion string :=
  match v with
  | JStr s => Ok (lower s)
  | _ => Raise AttributeError
  end.

End Py.

Arguments Py.round_double : simpl never.
Arguments Py.float_of_int : simpl never.
Arguments Py.add : simpl never.

(** ** The world the service runs in *)

(** What a call to a remote endpoint comes back with, and how long it took.
    [HttpFail] covers [requests.get]/[requests.post] raising,
    [raise_for_status] raising and [response.json()] raising. *)
Inductive http_outcome : Type :=
| HttpFail (detail : string)
| HttpJson (data : json).

Record reply : Type := mkReply { elapsed : Z; outcome : http_outcome }.

(** Observable actions, in the order they happen. *)
Inductive event : Type :=
| TokenFetch (appid appsecret : string)
| Upload (access_token : json) (voice_id lang path : string)
| Sleep (delay : Z)
| Query (access_token : json) (voice_id lang : string).

Record world : Type := mkWorld {
  appid : string;
  appsecret : string;
  access_token : json;        (* self.access_token, None at first *)
  token_expire_time : Z;      (* self.token_expire_time *)
  now : Z;                    (* time.time(), in seconds *)
  files : gset string;        (* paths that exist *)
  uuids : nat;                (* identifiers drawn so far *)
  trace : list (Z * event)    (* time-stamped actions so far *)
}.

Definition init (appid appsecret : string) (now : Z) (files : gset string) : world :=
  mkWorld appid appsecret JNull 0 now files 0 [].

Definition set_access_token (v : json) (w : world) : world :=
  mkWorld (appid w) (appsecret w) v (token_expire_time w) (now w) (files w) (uuids w) (trace w).

Definition set_token_expire_time (t : Z) (w : world) : world :=
  mkWorld (appid w) (appsecret w) (access_token w) t (now w) (files w) (uuids w) (trace w).

Definition set_now (t : Z) (w : world) : world :=
  mkWorld (appid w) (appsecret w) (access_token w) (token_expire_time w) t (files w) (uuids w) (trace w).

Definition set_files (fs : gset string) (w : world) : world :=
  mkWorld (appid w) (appsecret w) (access_token w) (token_expire_time w) (now w) fs (uuids w) (trace w).

Definition set_uuids (n : nat) (w : world) : world :=
  mkWorld (appid w) (appsecret w) (access_token w) (token_expire_time w) (now w) (files w) n (trace w).

Definition record (ev : event) (w : world) : world :=
  mkWorld (appid w) (appsecret w) (access_token w) (token_expire_time w) (now w) (files w) (uuids w)
          (trace w ++ [(now w, ev)]).

Definition is_fetch (e : Z * event) : bool :=
  match snd e with TokenFetch _ _ => true | _ => false end.
Definition is_upload (e : Z * event) : bool :=
  match snd e with Upload _ _ _ _ => true | _ => false end.
Definition is_sleep (e : Z * event) : bool :=
  match snd e with Sleep _ => true | _ => false end.
Definition is_query (e : Z * event) : bool :=
  match snd e with Query _ _ _ => true | _ => false end.

Definition count (p : Z * event -> bool) (tr : list (Z * event)) : nat :=
  length (List.filter p tr).
Arguments count : simpl never.

(** ** Computations: state passing with exceptions

    A raised exception keeps the state reached so far, as attribute
    assignments made before a [raise] stay visible. *)

Definition M (A : Type) : Type := world -> completion A * world.

Definition ret {A} (a : A) : M A := fun w => (Ok a, w).
Definition raise {A} (e : exn) : M A := fun w => (Raise e, w).
Definition bind {A B} (c : M A) (k : A -> M B) : M B :=
  fun w => match c w with
           | (Ok a, w') => k a w'
           | (Raise e, w') => (Raise e, w')
           end.
Definition lift {A} (r : completion A) : M A := fun w => (r, w).
Definition modify (f : world -> world) : M unit := fun w => (Ok tt, f w).
Definition gets {A} (f : world -> A) : M A := fun w => (Ok (f w), w).

(** [try: c  except Exception as e: h e]. *)
Definition try_except {A} (c : M A) (h : exn -> M A) : M A :=
  fun w => match c w with
           | (Ok a, w') => (Ok a, w')
           | (Raise e, w') => h e w'
           end.

Notation "x <- c ;; k" := (bind c (fun x => k))
  (at level 100, c at next level, right associativity).
Notation "c ;; k" := (bind c (fun _ => k))
  (at level 100, right associativity).

(** ** The environment

    The remote endpoints answer the n-th request they receive; [uuid4]
    is the n-th identifier the generator hands out; [encoder] is pydub
    ([AudioSegment.from_file] followed by [export]); [splitext_root] is
    [os.path.splitext(p)[0]]. *)

Inductive encode_outcome : Type :=
| DecodeFail (detail : string)
| ExportFail (detail : string) (leaves_file : bool)
| ExportOk.

Record environment : Type := mkEnv {
  token_endpoint : nat -> reply;
  upload_endpoint : nat -> reply;
  query_endpoint : nat -> reply;
  uuid4 : nat -> string;
  splitext_root : string -> string;
  encoder : string -> string -> encode_outcome
}.

(** The value of a loop body: [return v] or falling through to the next
    iteration. *)
Inductive flow : Type :=
| Return (v : json)
| Next.

Section Service.

Variable env : environment.

(** A request to a remote endpoint: it is sent now, and its answer
    arrives [elapsed] seconds later. *)
Definition http (ev : event) (r : reply) : M json :=
  modify (record ev) ;;
  modify (fun w => set_now (now w + elapsed r) w) ;;
  match outcome r with
  | HttpFail detail => raise (RequestError detail)
  | HttpJson data => ret data
  end.

(** [time.sleep(delay)]; a negative length is refused. *)
Definition sleep (delay : Z) : M unit :=
  if delay <? 0 then raise ValueError
  else modify (record (Sleep delay)) ;;
       modify (fun w => set_now (now w + delay) w).

Definition file_exists (path : string) : M bool :=
  gets (fun w => bool_decide (path ∈ files w)).

(** The test of line 28:
    [self.access_token and time.time() < self.token_expire_time - 300]. *)
Definition credential_valid (w : world) : bool :=
  Py.truthy (access_token w) && (now w <? token_expire_time w - 300).

Definition get_access_token : M json :=
  valid <- gets credential_valid ;;
  if valid then gets access_token
  else
    try_except
      (n <- gets (fun w => count is_fetch (trace w)) ;;
       id <- gets appid ;;
       secret <- gets appsecret ;;
       data <- http (TokenFetch id secret) (token_endpoint env n) ;;
       has <- lift (Py.has_key "access_token" data) ;;
       if has then
         tok <- lift (Py.getitem data "access_token") ;;
         modify (set_access_token tok) ;;
         t <- gets now ;;
         expires_in <- lift (Py.get data "expires_in" (JNum 7200)) ;;
         expire <- lift (Py.add t expires_in) ;;
         modify (set_token_expire_time expire) ;;
         gets access_token
       else
         error_msg <- lift (Py.get data "errmsg" (JStr "Unknown error")) ;;
         raise (TokenRejected error_msg))
      (fun e => raise (TokenError e)).

(** [frame_rate] and [channels] only reach the encoder; the size check
    after the export only prints a warning. *)
Definition convert_audio_to_mp3 (input_path : string) (output_path : option string)
  : M string :=
  try_except
    (present <- file_exists input_path ;;
     if negb present then raise (FileNotFoundError input_path)
     else
       let out := match output_path with
                  | Some p => p
                  | None => splitext_root env input_path +:+ "_converted.mp3"
                  end in
       match encoder env input_path out with
       | DecodeFail detail => raise (CodecError detail)
       | ExportFail detail leaves_file =>
           (if leaves_file
            then modify (fun w => set_files ({[out]} ∪ files w) w)
            else ret tt) ;;
           raise (CodecError detail)
       | ExportOk =>
           modify (fun w => set_files ({[out]} ∪ files w) w) ;;
           ret out
       end)
    (fun e => raise (ConversionError e)).

(** [str(uuid.uuid4())]. *)
Definition fresh_uuid : M string :=
  n <- gets uuids ;;
  modify (set_uuids (S n)) ;;
  ret (uuid4 env n).

Definition upload_voice_for_recognition (audio_file_path lang : string) : M string :=
  token <- get_access_token ;;
  voice_id <- fresh_uuid ;;
  try_except
    (present <- file_exists audio_file_path ;;
     if negb present then raise (FileNotFoundError audio_file_path)
     else
       n <- gets (fun w => count is_upload (trace w)) ;;
       result <- http (Upload token voice_id lang audio_file_path)
                      (upload_endpoint env n) ;;
       errcode <- lift (Py.get result "errcode" JNull) ;;
       if Py.eq_zero errcode then ret voice_id
       else
         error_msg <- lift (Py.get result "errmsg" (JStr "Unknown error")) ;;
         raise (UploadRejected error_msg))
    (fun e => raise (UploadError e)).

(** What lines 169-181 make of a decoded response: the value to
    return, falling through to the next attempt, or an exception.
    Nothing here touches the state. *)
Definition classify_response (result : json) : completion flow :=
  let* has := Py.has_key "result" result in
  if has then
    let* v := Py.getitem result "result" in
    Ok (Return v)
  else
    let* errcode := Py.get result "errcode" JNull in
    if negb (Py.eq_zero errcode) then
      let* error_msg := Py.get result "errmsg" (JStr "Unknown error") in
      let* low := Py.str_lower error_msg in
      if Py.contains "busy" low || Py.contains "wait" low then Ok Next
      else Raise (RecognitionError error_msg)
    else Ok Next.

(** The body of the [try] of one polling attempt (lines 162-181). *)
Definition attempt_body (token : json) (voice_id lang : string) (delay : Z) : M flow :=
  sleep delay ;;
  n <- gets (fun w => count is_query (trace w)) ;;
  result <- http (Query token voice_id lang) (query_endpoint env n) ;;
  lift (classify_response result).

(** [for attempt in range(max_retries)], with [remaining] iterations
    left, followed by the [raise] of line 188. *)
Fixpoint poll_loop (token : json) (voice_id lang : string) (max_retries delay : Z)
         (remaining : nat) (attempt : Z) : M json :=
  match remaining with
  | O => raise MaxRetriesExceeded
  | S remaining' =>
      step <- try_except
                (attempt_body token voice_id lang delay)
                (fun e => if attempt =? max_retries - 1
                          then raise (QueryFailed max_retries e)
                          else ret Next) ;;
      match step with
      | Return v => ret v
      | Next => poll_loop token voice_id lang max_retries delay remaining' (attempt + 1)
      end
  end.

Definition query_recognition_result (voice_id lang : string) (max_retries delay : Z)
  : M json :=
  token <- get_access_token ;;
  poll_loop token voice_id lang max_retries delay (Z.to_nat max_retries) 0.

(** [os.remove(path)] guarded by [os.path.exists(path)]. *)
Definition remove_if_exists (path : string) (w : world) : world :=
  if bool_decide (path ∈ files w) then set_files (files w ∖ {[path]}) w else w.

(** Steps 2 and 3 of [recognize_speech] (lines 208-214); the query
    runs with the defaults [max_retries=5], [delay=1]. *)
Definition upload_then_query (converted_audio lang : string) : M json :=
  voice_id <- upload_voice_for_recognition converted_audio lang ;;
  query_recognition_result voice_id lang 5 1.

(** [try / except / finally] of lines 201-222.  When the conversion
    raises, [converted_audio] is not bound and the [finally] block
    removes nothing. *)
Definition recognize_speech (audio_file_path lang : string) : M json :=
  fun w =>
    match convert_audio_to_mp3 audio_file_path None w with
    | (Raise e, w1) => (Raise (SpeechError e), w1)
    | (Ok converted_audio, w1) =>
        match upload_then_query converted_audio lang w1 with
        | (Ok text, w2) => (Ok text, remove_if_exists converted_audio w2)
        | (Raise e, w2) => (Raise (SpeechError e), remove_if_exists converted_audio w2)
        end
    end.

(** ** Vocabulary for the statements below *)

(** The state after the answer to a token request has arrived. *)
Definition after_fetch (w : world) : world :=
  let r := token_endpoint env (count is_fetch (trace w)) in
  set_now (now w + elapsed r) (record (TokenFetch (appid w) (appsecret w)) w).

(** The state after one attempt that slept and received the answer to
    its query. *)
Definition after_attempt (token : json) (voice_id lang : string) (delay : Z) (w : world)
  : world :=
  let r := query_endpoint env (count is_query (trace w)) in
  set_now (now w + delay + elapsed r)
          (record (Query token voice_id lang)
                  (set_now (now w + delay) (record (Sleep delay) w))).

(** The state after the answer to a submit request has arrived. *)
Definition after_upload (token : json) (audio_file_path lang : string) (w : world) : world :=
  let r := upload_endpoint env (count is_upload (trace w)) in
  set_now (now w + elapsed r)
          (record (Upload token (uuid4 env (uuids w)) lang audio_file_path)
                  (set_uuids (S (uuids w)) w)).

(** What an attempt makes of the answer to its query. *)
Definition attempt_verdict (r : reply) : completion flow :=
  match outcome r with
  | HttpFail detail => Raise (RequestError detail)
  | HttpJson data => classify_response data
  end.

End Service.

(** The answer to a submit request carries a zero error code. *)
Definition accepted (r : reply) : bool :=
  match outcome r with
  | HttpJson (JObj fields) =>
      match Py.assoc "errcode" fields with
      | Some errcode => Py.eq_zero errcode
      | None => false
      end
  | _ => false
  end.

(** The message of an answer, or the stand-in used when it has none. *)
Definition remote_message (fields : list (string * json)) : json :=
  match Py.assoc "errmsg" fields with
  | Some error_msg => error_msg
  | None => JStr "Unknown error"
  end.

(** The attempt ended the poll with a text. *)
Definition is_success (c : completion flow) : bool :=
  match c with Ok (Return _) => true | _ => false end.

(** The remote side rejected the recognition (line 179). *)
Definition is_permanent (e : exn) : bool :=
  match e with RecognitionError _ => true | _ => false end.

(** The attempt neither produced a text nor a rejection. *)
Definition inconclusive (c : completion flow) : bool :=
  match c with
  | Ok (Return _) => false
  | Ok Next => true
  | Raise e => negb (is_permanent e)
  end.

(** The poll gave up: either the loop ran out (line 188) or the last
    attempt failed with something other than a rejection (line 185). *)
Definition exhausted (e : exn) : bool :=
  match e with
  | MaxRetriesExceeded => true
  | QueryFailed _ cause => negb (is_permanent cause)
  | _ => false
  end.

(** The actions of the polling loop for one token and one request. *)
Definition poll_event (token : json) (voice_id lang : string) (delay : Z)
           (e : Z * event) : Prop :=
  snd e = Sleep delay \/ snd e = Query token voice_id lang.

(** [w'] is [w] followed by polling actions only, with at most [bound]
    sleeps and at most [bound] queries. *)
Definition polled (token : json) (voice_id lang : string) (delay : Z) (bound : nat)
           (w w' : world) : Prop :=
  exists evs,
    trace w' = trace w ++ evs /\
    Forall (poll_event token voice_id lang delay) evs /\
    (count is_query evs <= bound)%nat /\
    (count is_sleep evs <= bound)%nat.

(** A query sent at or after [expire - 300], when line 28 no longer
    accepts the cached credential. *)
Definition stale_query (expire : Z) (e : Z * event) : bool :=
  is_query e && (expire - 300 <=? fst e).

(** Every query of the trace went out while the cached credential was
    still accepted. *)
Definition every_query_has_valid_credential (w : world) : Prop :=
  forallb (fun e => negb (stale_query (token_expire_time w) e)) (trace w) = true.

(** Both cached fields agree. *)
Definition same_credential (w w' : world) : Prop :=
  access_token w' = access_token w /\ token_expire_time w' = token_expire_time w.

(** Everything but the clock and the trace agrees. *)
Definition same_store (w w' : world) : Prop :=
  appid w' = appid w /\ appsecret w' = appsecret w /\
  files w' = files w /\ uuids w' = uuids w.

(** Sleeps and queries come in pairs: a sleep of [delay], then the query
    for the same token and request, sent when the sleep ends. *)
Fixpoint paired (token : json) (voice_id lang : string) (delay : Z)
         (evs : list (Z * event)) : Prop :=
  match evs with
  | [] => True
  | (t, Sleep d) :: (t', Query tok v l) :: rest =>
      d = delay /\ t' = t + delay /\ tok = token /\ v = voice_id /\ l = lang /\
      paired token voice_id lang delay rest
  | _ => False
  end.

(** The test of line 172 on an object answer: [result.get('errcode') != 0],
    which a missing [errcode] passes. *)
Definition signals_error (fields : list (string * json)) : bool :=
  match Py.assoc "errcode" fields with
  | Some errcode => negb (Py.eq_zero errcode)
  | None => true
  end.

(** [pattern] occurs in the lowercased message. *)
Definition mentions (pattern msg : string) : Prop :=
  exists before after, Py.lower msg = before +:+ pattern +:+ after.

(** What the last attempt of a poll turns into when it is reached. *)
Definition last_attempt_result (max_retries : Z) (c : completion flow) : completion json :=
  match c with
  | Ok (Return v) => Ok v
  | Ok Next => Raise MaxRetriesExceeded
  | Raise e => Raise (QueryFailed max_retries e)
  end.

(** The actions of one run of the pipeline for one identifier: token
    requests, the submission of [path], one-second sleeps and queries. *)
Definition pipeline_event (voice_id lang path : string) (e : Z * event) : Prop :=
  match snd e with
  | TokenFetch _ _ => True
  | Upload _ v l p => v = voice_id /\ l = lang /\ p = path
  | Sleep d => d = 1
  | Query _ v l => v = voice_id /\ l = lang
  end.

(** At most so many token requests, submissions, queries and sleeps. *)
Definition within_budget (fetches uploads queries sleeps : nat)
           (evs : list (Z * event)) : Prop :=
  (count is_fetch evs <= fetches)%nat /\
  (count is_upload evs <= uploads)%nat /\
  (count is_query evs <= queries)%nat /\
  (count is_sleep evs <= sleeps)%nat.

(** Where the conversion writes: the path asked for, or the input path
    with its extension replaced by ["_converted.mp3"] (lines 74-76). *)
Definition target_path (env : environment) (input_path : string)
           (output_path : option string) : string :=
  match output_path with
  | Some p => p
  | None => splitext_root env input_path +:+ "_converted.mp3"
  end.

(** The errors that the stages of [recognize_speech] hand to its
    [except] clause. *)
Definition stage_error (e : exn) : bool :=
  match e with
  | ConversionError _ | TokenError _ | UploadError _ => true
  | QueryFailed n _ => n =? 5
  | MaxRetriesExceeded => true
  | _ => false
  end.

(** Whatever way the run ends, no file is left at the path the
    conversion writes, unless one was there before the run. *)
Definition artifact_never_left (env : environment) (audio_file_path lang : string)
           (w : world) : Prop :=
  let out := target_path env audio_file_path None in
  out ∉ files w ->
  out ∉ files (snd (recognize_speech env audio_file_path lang w)).

(** The call has drawn one identifier and sent one submit request. *)
Definition submits_exactly_once (env : environment) (audio_file_path lang : string)
           (w : world) : Prop :=
  let w' := snd (upload_voice_for_recognition env audio_file_path lang w) in
  uuids w' = S (uuids w) /\
  count is_upload (trace w') = S (count is_upload (trace w)).

(** ** Concrete runs

    Small environments and states on which the statements below are
    exercised. *)

Module Scenario.

Definition answer (data : json) : reply := mkReply 1 (HttpJson data).

Definition token_ok : json :=
  JObj [("access_token", JStr "T2"); ("expires_in", JNum 3600)].
Definition token_denied : json :=
  JObj [("errcode", JNum 40013); ("errmsg", JStr "invalid appid")].
Definition not_ready : json := JObj [("errcode", JNum 0)].
Definition busy : json := JObj [("errcode", JNum 1); ("errmsg", JStr "server busy")].
Definition invalid_voice : json :=
  JObj [("errcode", JNum 2); ("errmsg", JStr "invalid voice")].
Definition recognised : json := JObj [("result", JStr "hello world")].

(** Replies in the order given, then the last one forever. *)
Fixpoint script (rs : list reply) (last : reply) (n : nat) : reply :=
  match rs, n with
  | [], _ => last
  | r :: _, O => r
  | _ :: rest, S n' => script rest last n'
  end.

Definition remote (tokens uploads queries : list json) (encode : encode_outcome)
  : environment :=
  mkEnv (script (map answer tokens) (mkReply 1 (HttpFail "connection refused")))
        (script (map answer uploads) (mkReply 1 (HttpFail "connection refused")))
        (script (map answer queries) (mkReply 1 (HttpFail "connection refused")))
        (fun n => if (n =? 0)%nat then "abc-123" else "abc-456")
        (fun _ => "audio")
        (fun _ _ => encode).

(** A service created at time 1000, with the recording on disk. *)
Definition fresh : world := init "wx-app" "wx-secret" 1000 {["audio.wav"]}.

(** The same service holding the token ["T"], good until [expire_time]. *)
Definition holding (expire_time : Z) : world :=
  set_token_expire_time expire_time (set_access_token (JStr "T") fresh).

(** Token endpoint out of reach; queries answer [queries] in order. *)
Definition polling (queries : list json) : environment :=
  remote [] [] queries ExportOk.

(** The whole pipeline: one token, an accepted upload, then [queries]. *)
Definition pipeline (queries : list json) : environment :=
  remote [token_ok] [JObj [("errcode", JNum 0)]] queries ExportOk.

(** Two attempts, one second apart, holding a token good for a long
    time: the first answer is a rejection, the second a text. *)
Definition rejected_then_recognised : completion json * world :=
  query_recognition_result (polling [invalid_voice; recognised])
    "abc-123" "zh_CN" 2 1 (holding 100000).

(** Two attempts, 200 seconds apart, holding a token that line 28
    accepts until time 1300. *)
Definition slow_poll : completion json * world :=
  query_recognition_result (polling [not_ready; recognised])
    "abc-123" "zh_CN" 2 200 (holding 1600).

(** The state after converting the recording. *)
Definition converted : world :=
  snd (convert_audio_to_mp3 (pipeline [not_ready; not_ready; recognised])
         "audio.wav" None fresh).

(** The token endpoint answers with an error payload. *)
Definition denied : environment := remote [token_denied] [] [] ExportOk.

(** The submit endpoint turns the upload down. *)
Definition upload_refused : environment :=
  remote [token_ok] [JObj [("errcode", JNum 40007); ("errmsg", JStr "invalid media")]]
         [] ExportOk.

(** Two uploads are accepted one after the other. *)
Definition two_uploads : environment :=
  remote [token_ok] [JObj [("errcode", JNum 0)]; JObj [("errcode", JNum 0)]] [] ExportOk.

(** The encoder fails after its output file has appeared. *)
Definition export_fails : environment :=
  remote [token_ok] [] [] (ExportFail "encoder exited" true).

(** An error answer whose message has the pattern in capitals. *)
Definition shouting : list (string * json) :=
  [("errcode", JNum 1); ("errmsg", JStr "Server BUSY now")].

End Scenario.

(** * Properties *)

Lemma count_app (p : Z * event -> bool) (xs ys : list (Z * event)) :
  count p (xs ++ ys) = (count p xs + count p ys)%nat.
Proof. unfold count. now rewrite List.filter_app, length_app. Qed.

(** Below 2^53 in magnitude the double arithmetic of line 40 is exact. *)
Lemma round_double_exact (n : Z) : Z.abs n < 2 ^ 53 -> Py.round_double n = n.
Proof. intros H. unfold Py.round_double. apply Z.ltb_lt in H. now rewrite H. Qed.

Lemma float_of_int_exact (n : Z) : Z.abs n < 2 ^ 53 -> Py.float_of_int n = Ok n.
Proof.
  intros H. unfold Py.float_of_int. rewrite (round_double_exact n H).
  assert (Hbig : 2 ^ 53 < 2 ^ 1024) by (apply Z.pow_lt_mono_r; lia).
  destruct (Z.leb_spec (2 ^ 1024) (Z.abs n)); [lia | reflexivity].
Qed.

Lemma add_exact (t n : Z) :
  Z.abs n < 2 ^ 53 -> Z.abs (t + n) < 2 ^ 53 -> Py.add t (JNum n) = Ok (t + n).
Proof.
  intros Hn Hsum. unfold Py.add. rewrite (float_of_int_exact n Hn).
  cbn [completion_bind]. now rewrite (round_double_exact _ Hsum).
Qed.

(** Unfolding the plumbing of a computation applied to a state. *)
Ltac run :=
  unfold bind, ret, raise, lift, modify, gets, try_except in *; cbn beta iota in *.

Section Credential.

Variable env : environment.

Lemma get_access_token_cached (w : world) :
  credential_valid w = true ->
  get_access_token env w = (Ok (access_token w), w).
Proof. intros H. unfold get_access_token. run. now rewrite H. Qed.

Lemma get_access_token_unreachable (w : world) (detail : string) :
  credential_valid w = false ->
  outcome (token_endpoint env (count is_fetch (trace w))) = HttpFail detail ->
  get_access_token env w = (Raise (TokenError (RequestError detail)), after_fetch env w).
Proof.
  intros Hv Hr. unfold get_access_token, http. run. rewrite Hv. cbn.
  rewrite Hr. reflexivity.
Qed.

Lemma get_access_token_answer (w : world) (data : json) :
  credential_valid w = false ->
  outcome (token_endpoint env (count is_fetch (trace w))) = HttpJson data ->
  get_access_token env w =
    match Py.has_key "access_token" data with
    | Raise e => (Raise (TokenError e), after_fetch env w)
    | Ok false =>
        match Py.get data "errmsg" (JStr "Unknown error") with
        | Ok error_msg => (Raise (TokenError (TokenRejected error_msg)), after_fetch env w)
        | Raise e => (Raise (TokenError e), after_fetch env w)
        end
    | Ok true =>
        match Py.getitem data "access_token" with
        | Raise e => (Raise (TokenError e), after_fetch env w)
        | Ok tok =>
            let w1 := set_access_token tok (after_fetch env w) in
            match completion_bind (Py.get data "expires_in" (JNum 7200)) (Py.add (now w1)) with
            | Ok expire => (Ok tok, set_token_expire_time expire w1)
            | Raise e => (Raise (TokenError e), w1)
            end
        end
    end.
Proof.
  intros Hv Hr. unfold get_access_token, http. run. rewrite Hv. cbn.
  rewrite Hr.
  destruct (Py.has_key "access_token" data) as [[|]|e]; [| |reflexivity].
  - destruct (Py.getitem data "access_token") as [tok|e]; [|reflexivity].
    cbn. destruct (Py.get data "expires_in" (JNum 7200)) as [v|e]; [|reflexivity].
    cbn. destruct (Py.add _ v); reflexivity.
  - destruct (Py.get data "errmsg" (JStr "Unknown error")); reflexivity.
Qed.

Lemma credential_valid_false (w : world) :
  Py.truthy (access_token w) = false \/ token_expire_time w - 300 <= now w <->
  credential_valid w = false.
Proof.
  unfold credential_valid. rewrite andb_false_iff, Z.ltb_ge. reflexivity.
Qed.

Lemma get_access_token_frame (w : world) :
  let w' := snd (get_access_token env w) in
  same_store w w' /\
  (trace w' = trace w \/
   trace w' = trace w ++ [(now w, TokenFetch (appid w) (appsecret w))]).
Proof.
  cbn zeta. destruct (credential_valid w) eqn:Hv.
  - rewrite (get_access_token_cached w Hv). cbn. split; [repeat split | now left].
  - destruct (outcome (token_endpoint env (count is_fetch (trace w)))) as [d|data] eqn:Hr.
    + rewrite (get_access_token_unreachable w d Hv Hr). cbn.
      split; [repeat split | now right].
    + rewrite (get_access_token_answer w data Hv Hr).
      destruct (Py.has_key "access_token" data) as [[|]|e];
        [destruct (Py.getitem data "access_token") as [tok|e];
         [cbn zeta;
          destruct (completion_bind (Py.get data "expires_in" (JNum 7200)) _)|]
        |destruct (Py.get data "errmsg" (JStr "Unknown error"))|];
        cbn; (split; [repeat split | now right]).
Qed.

(** Without an accepted credential one token request goes out, whatever
    comes back. *)
Lemma get_access_token_fetches (w : world) :
  credential_valid w = false ->
  trace (snd (get_access_token env w))
  = trace w ++ [(now w, TokenFetch (appid w) (appsecret w))].
Proof.
  intros Hv.
  destruct (outcome (token_endpoint env (count is_fetch (trace w)))) as [d|data] eqn:Hr.
  - rewrite (get_access_token_unreachable w d Hv Hr). reflexivity.
  - rewrite (get_access_token_answer w data Hv Hr).
    destruct (Py.has_key "access_token" data) as [[|]|e];
      [destruct (Py.getitem data "access_token") as [tok|e];
       [cbn zeta;
        destruct (completion_bind (Py.get data "expires_in" (JNum 7200)) _)|]
      |destruct (Py.get data "errmsg" (JStr "Unknown error"))|];
      reflexivity.
Qed.

(** C3. [get_access_token] hands back the cached token, touching nothing
    and sending nothing, whenever a cached token exists (the attribute
    is truthy) and the clock is strictly before [token_expire_time - 300].
    Otherwise it sends one token request; when the answer carries
    [access_token], that token is cached and returned, and the cached
    expiry becomes the time the answer arrived plus [expires_in], or
    plus 7200 when the answer has no [expires_in].  "Exists" is the
    test of line 28 on [self.access_token]: neither [None] nor empty.
    The sum of line 40 is a sum of doubles: it is the exact sum as long
    as [expires_in] and the sum stay below 2^53 in magnitude, which is
    what the last part asks for. *)
Theorem get_access_token_reuse_or_refresh (w : world) :
  (Py.truthy (access_token w) = true ->
   now w < token_expire_time w - 300 ->
   get_access_token env w = (Ok (access_token w), w))
  /\
  (Py.truthy (access_token w) = false \/ token_expire_time w - 300 <= now w ->
   trace (snd (get_access_token env w))
   = trace w ++ [(now w, TokenFetch (appid w) (appsecret w))])
  /\
  (Py.truthy (access_token w) = false \/ token_expire_time w - 300 <= now w ->
   forall (fields : list (string * json)) (tok : json) (expires_in : Z),
     let r := token_endpoint env (count is_fetch (trace w)) in
     outcome r = HttpJson (JObj fields) ->
     Py.assoc "access_token" fields = Some tok ->
     Py.assoc "expires_in" fields = Some (JNum expires_in) \/
     (Py.assoc "expires_in" fields = None /\ expires_in = 7200) ->
     Z.abs expires_in < 2 ^ 53 ->
     Z.abs (now w + elapsed r + expires_in) < 2 ^ 53 ->
     exists w',
       get_access_token env w = (Ok tok, w') /\
       access_token w' = tok /\
       token_expire_time w' = now w + elapsed r + expires_in /\
       now w' = now w + elapsed r /\
       trace w' = trace w ++ [(now w, TokenFetch (appid w) (appsecret w))] /\
       same_store w w').
Proof.
  split; [|split].
  - intros Ht Hn. apply get_access_token_cached. unfold credential_valid.
    rewrite Ht. cbn. now apply Z.ltb_lt.
  - intros Hinv. apply get_access_token_fetches, credential_valid_false, Hinv.
  - intros Hinv fields tok expires_in r Hr Htok Hexp Hsmall Hsum.
    apply credential_valid_false in Hinv.
    rewrite (get_access_token_answer w _ Hinv Hr). cbn. rewrite Htok. cbn.
    fold r.
    assert (Hadd : Py.add (now w + elapsed r)
                     (match Py.assoc "expires_in" fields with
                      | Some v => v
                      | None => JNum 7200
                      end) = Ok (now w + elapsed r + expires_in)).
    { destruct Hexp as [Hexp|[Hexp ->]]; rewrite Hexp; now apply add_exact. }
    destruct Hexp as [Hexp|[Hexp Hdef]]; rewrite Hexp in Hadd |- *; cbn;
      rewrite Hadd; (eexists; split; [reflexivity|]); cbn; repeat split.
Qed.

(** C9. When the token request fails, because the endpoint cannot be
    reached or because the answer carries no [access_token],
    [get_access_token] raises and both cached fields keep the values
    they had before the call. *)
Theorem get_access_token_failure_keeps_cache (w : world) :
  Py.truthy (access_token w) = false \/ token_expire_time w - 300 <= now w ->
  let r := token_endpoint env (count is_fetch (trace w)) in
  (exists detail, outcome r = HttpFail detail) \/
  (exists data, outcome r = HttpJson data /\ Py.has_key "access_token" data <> Ok true) ->
  exists e w',
    get_access_token env w = (Raise (TokenError e), w') /\
    same_credential w w' /\
    w' = after_fetch env w.
Proof.
  intros Hinv r [[detail Hr]|[data [Hr Hno]]]; apply credential_valid_false in Hinv.
  - rewrite (get_access_token_unreachable w detail Hinv Hr).
    eexists _, _. split; [reflexivity|]. split; [split|]; reflexivity.
  - rewrite (get_access_token_answer w data Hinv Hr).
    destruct (Py.has_key "access_token" data) as [[|]|e]; [congruence| |].
    + destruct (Py.get data "errmsg" (JStr "Unknown error"));
        (eexists _, _; split; [reflexivity|]; split; [split|]; reflexivity).
    + eexists _, _. split; [reflexivity|]. split; [split|]; reflexivity.
Qed.

End Credential.

Section Poll.

Variable env : environment.
Variables (token : json) (voice_id lang : string) (max_retries delay : Z).

Local Abbreviation loop := (poll_loop env token voice_id lang max_retries delay).
Local Abbreviation attempt := (attempt_body env token voice_id lang delay).
Local Abbreviation next := (after_attempt env token voice_id lang delay).

Lemma count_query_sleep (w : world) (d : Z) :
  count is_query (trace (set_now (now w + d) (record (Sleep d) w)))
  = count is_query (trace w).
Proof.
  unfold set_now, record. cbn [trace]. rewrite count_app.
  change (count is_query [(now w, Sleep d)]) with 0%nat. lia.
Qed.

Lemma attempt_body_run (w : world) :
  0 <= delay ->
  attempt w = (attempt_verdict (query_endpoint env (count is_query (trace w))), next w).
Proof.
  intros Hd. unfold attempt_body, sleep, http, attempt_verdict, after_attempt.
  apply Z.ltb_ge in Hd. rewrite Hd. run.
  change (now (record (Sleep delay) w)) with (now w).
  rewrite (count_query_sleep w delay).
  change (now (record (Query token voice_id lang) (set_now (now w + delay) (record (Sleep delay) w))))
    with (now w + delay).
  destruct (outcome (query_endpoint env (count is_query (trace w)))) as [d|data]; cbn.
  - reflexivity.
  - destruct (classify_response data); reflexivity.
Qed.

Lemma attempt_body_refused (w : world) :
  delay < 0 -> attempt w = (Raise ValueError, w).
Proof.
  intros Hd. unfold attempt_body, sleep. apply Z.ltb_lt in Hd. rewrite Hd.
  reflexivity.
Qed.

Lemma trace_after_attempt (w : world) :
  trace (next w) = trace w ++ [(now w, Sleep delay); (now w + delay, Query token voice_id lang)].
Proof. cbn. now rewrite <- app_assoc. Qed.

(** One iteration of the loop, when the sleep is accepted. *)
Lemma poll_loop_step (remaining : nat) (attempt_no : Z) (w : world) :
  0 <= delay ->
  loop (S remaining) attempt_no w =
    match attempt_verdict (query_endpoint env (count is_query (trace w))) with
    | Ok (Return v) => (Ok v, next w)
    | Ok Next => loop remaining (attempt_no + 1) (next w)
    | Raise e =>
        if attempt_no =? max_retries - 1
        then (Raise (QueryFailed max_retries e), next w)
        else loop remaining (attempt_no + 1) (next w)
    end.
Proof.
  intros Hd. cbn [poll_loop]. run. rewrite (attempt_body_run w Hd).
  destruct (attempt_verdict _) as [[v|]|e]; try reflexivity.
  destruct (attempt_no =? max_retries - 1); reflexivity.
Qed.

(** One iteration of the loop, when the sleep is refused. *)
Lemma poll_loop_step_refused (remaining : nat) (attempt_no : Z) (w : world) :
  delay < 0 ->
  loop (S remaining) attempt_no w =
    if attempt_no =? max_retries - 1
    then (Raise (QueryFailed max_retries ValueError), w)
    else loop remaining (attempt_no + 1) w.
Proof.
  intros Hd. cbn [poll_loop]. run. rewrite (attempt_body_refused w Hd).
  destruct (attempt_no =? max_retries - 1); reflexivity.
Qed.

(** A rejection raised by an attempt reaches the handler of line 183
    like any other exception: the call goes on unless the attempt was
    the last one. *)
Lemma poll_loop_rejection (remaining : nat) (attempt_no : Z) (w : world)
      (error_msg : json) :
  0 <= delay ->
  attempt_verdict (query_endpoint env (count is_query (trace w)))
  = Raise (RecognitionError error_msg) ->
  loop (S remaining) attempt_no w =
    if attempt_no =? max_retries - 1
    then (Raise (QueryFailed max_retries (RecognitionError error_msg)), next w)
    else loop remaining (attempt_no + 1) (next w).
Proof. intros Hd Hv. rewrite (poll_loop_step _ _ _ Hd), Hv. reflexivity. Qed.

Lemma next_same_credential (w : world) : same_credential w (next w).
Proof. split; reflexivity. Qed.

Lemma next_same_store (w : world) : same_store w (next w).
Proof. repeat split; reflexivity. Qed.

Lemma polled_refl (bound : nat) (w : world) :
  polled token voice_id lang delay bound w w.
Proof.
  exists []. rewrite app_nil_r. split; [reflexivity|]. split; [constructor|].
  split; unfold count; cbn; lia.
Qed.

Lemma polled_next (bound : nat) (w w' : world) :
  polled token voice_id lang delay bound (next w) w' ->
  polled token voice_id lang delay (S bound) w w'.
Proof.
  intros (evs & Ht & Hall & Hq & Hs).
  exists ([(now w, Sleep delay); (now w + delay, Query token voice_id lang)] ++ evs).
  rewrite Ht, trace_after_attempt, <- app_assoc. split; [reflexivity|].
  split.
  - apply Forall_app. split; [|exact Hall].
    constructor; [left; reflexivity|].
    constructor; [right; reflexivity|]. constructor.
  - rewrite !count_app.
    change (count is_query [(now w, Sleep delay); (now w + delay, Query token voice_id lang)])
      with 1%nat.
    change (count is_sleep [(now w, Sleep delay); (now w + delay, Query token voice_id lang)])
      with 1%nat.
    lia.
Qed.

Lemma polled_weaken (bound : nat) (w w' : world) :
  polled token voice_id lang delay bound w w' ->
  polled token voice_id lang delay (S bound) w w'.
Proof.
  intros (evs & Ht & Hall & Hq & Hs). exists evs. repeat split; auto; lia.
Qed.

(** Whatever the answers, the loop only sleeps and queries, at most
    once each per iteration, and leaves the credential, the files and
    the identifier generator alone. *)
Lemma poll_loop_frame (remaining : nat) :
  forall (attempt_no : Z) (w : world),
    let w' := snd (loop remaining attempt_no w) in
    polled token voice_id lang delay remaining w w' /\
    same_credential w w' /\ same_store w w'.
Proof.
  induction remaining as [|remaining IH]; intros attempt_no w; cbn zeta.
  - cbn. split; [apply polled_refl|]. repeat split.
  - destruct (Z_lt_le_dec delay 0) as [Hneg|Hpos].
    + rewrite (poll_loop_step_refused _ _ _ Hneg).
      destruct (attempt_no =? max_retries - 1).
      * cbn. split; [apply polled_refl|]. repeat split.
      * destruct (IH (attempt_no + 1) w) as (Hp & Hc & Hs).
        split; [apply polled_weaken, Hp|]. split; assumption.
    + rewrite (poll_loop_step _ _ _ Hpos).
      assert (Hstop : polled token voice_id lang delay (S remaining) w (next w) /\
                      same_credential w (next w) /\ same_store w (next w)).
      { split; [apply polled_next, polled_refl|].
        split; [apply next_same_credential | apply next_same_store]. }
      assert (Hgo : let w' := snd (loop remaining (attempt_no + 1) (next w)) in
                    polled token voice_id lang delay (S remaining) w w' /\
                    same_credential w w' /\ same_store w w').
      { destruct (IH (attempt_no + 1) (next w)) as (Hp & Hc & Hs). cbn zeta.
        split; [apply polled_next, Hp|].
        split; [exact Hc | exact Hs]. }
      destruct (attempt_verdict _) as [[v|]|e]; [exact Hstop | exact Hgo |].
      destruct (attempt_no =? max_retries - 1); [exact Hstop | exact Hgo].
Qed.

Lemma count_query_next (w : world) :
  count is_query (trace (next w)) = S (count is_query (trace w)).
Proof.
  rewrite trace_after_attempt, count_app.
  change (count is_query [(now w, Sleep delay); (now w + delay, Query token voice_id lang)])
    with 1%nat.
  lia.
Qed.

(** [k] attempts that are not the last one and do not return a text
    are all made, one after the other. *)
Lemma poll_loop_skip (k : nat) :
  forall (remaining : nat) (attempt_no : Z) (w : world),
    0 <= delay ->
    attempt_no + Z.of_nat k <= max_retries - 1 ->
    (forall j, (j < k)%nat ->
       is_success (attempt_verdict (query_endpoint env (count is_query (trace w) + j)))
       = false) ->
    exists w' evs,
      loop (k + remaining) attempt_no w = loop remaining (attempt_no + Z.of_nat k) w' /\
      trace w' = trace w ++ evs /\
      count is_query evs = k /\ count is_sleep evs = k.
Proof.
  induction k as [|k IH]; intros remaining attempt_no w Hd Hfinal Hskip.
  - exists w, []. rewrite Z.add_0_r, app_nil_r. repeat split.
  - destruct (IH remaining (attempt_no + 1) (next w) Hd) as (w' & evs & Hrun & Ht & Hq & Hs).
    + lia.
    + intros j Hj. rewrite count_query_next.
      replace (S (count is_query (trace w)) + j)%nat
        with (count is_query (trace w) + S j)%nat by lia.
      apply Hskip. lia.
    + exists w', ([(now w, Sleep delay); (now w + delay, Query token voice_id lang)] ++ evs).
      split; [|split].
      * cbn [Nat.add]. rewrite (poll_loop_step _ _ _ Hd).
        specialize (Hskip 0%nat ltac:(lia)). rewrite Nat.add_0_r in Hskip.
        replace (attempt_no + Z.of_nat (S k)) with (attempt_no + 1 + Z.of_nat k) by lia.
        destruct (attempt_verdict _) as [[v|]|e]; [discriminate Hskip | exact Hrun |].
        destruct (Z.eqb_spec attempt_no (max_retries - 1)); [lia | exact Hrun].
      * rewrite Ht, trace_after_attempt, <- app_assoc. reflexivity.
      * rewrite !count_app, Hq, Hs. split; reflexivity.
Qed.

End Poll.

Section Polling.

Variable env : environment.
Variables (voice_id lang : string) (max_retries delay : Z).

Local Abbreviation poll := (query_recognition_result env voice_id lang max_retries delay).

Lemma query_recognition_result_unfold (w : world) :
  poll w =
    match get_access_token env w with
    | (Ok token, w1) =>
        poll_loop env token voice_id lang max_retries delay (Z.to_nat max_retries) 0 w1
    | (Raise e, w1) => (Raise e, w1)
    end.
Proof. reflexivity. Qed.

Lemma inconclusive_not_success (c : completion flow) :
  inconclusive c = true -> is_success c = false.
Proof. destruct c as [[v|]|e]; cbn; congruence. Qed.

Lemma classify_response_result (fields : list (string * json)) (v : json) :
  Py.assoc "result" fields = Some v ->
  classify_response (JObj fields) = Ok (Return v).
Proof. intros H. unfold classify_response. cbn. rewrite H. reflexivity. Qed.

(** C5. For a non-negative [max_retries] and whatever the remote side
    answers, one call of [query_recognition_result] sends at most
    [max_retries] query requests before it returns or raises. *)
Theorem poll_query_budget (w : world) :
  0 <= max_retries ->
  exists evs,
    trace (snd (poll w)) = trace w ++ evs /\
    Z.of_nat (count is_query evs) <= max_retries.
Proof.
  intros Hm. rewrite query_recognition_result_unfold.
  pose proof (get_access_token_frame env w) as [_ Hfetch]. cbn zeta in Hfetch.
  assert (Hpre : exists pre, trace (snd (get_access_token env w)) = trace w ++ pre /\
                             count is_query pre = 0%nat).
  { destruct Hfetch as [Ht|Ht]; rewrite Ht.
    - exists []. now rewrite app_nil_r.
    - eexists. split; reflexivity. }
  destruct Hpre as (pre & Hpre & Hq0).
  destruct (get_access_token env w) as [[token|e] w1]; cbn [snd] in Hpre.
  - destruct (poll_loop_frame env token voice_id lang max_retries delay
                (Z.to_nat max_retries) 0 w1) as ((evs & Ht & _ & Hq & _) & _).
    exists (pre ++ evs). rewrite Ht, Hpre, <- app_assoc. split; [reflexivity|].
    rewrite count_app, Hq0. lia.
  - exists pre. cbn [snd]. split; [exact Hpre|]. rewrite Hq0. lia.
Qed.


(** C2, as the code has it.  The credential is looked up once, before
    the first attempt.  From the state that lookup leaves, the call only
    sleeps and sends queries that all carry the token the lookup
    returned; it sends no token request and leaves both cached fields
    as they are, whether or not the credential is still valid when a
    later query goes out. *)
Theorem poll_single_lookup (w w1 : world) (token : json) :
  get_access_token env w = (Ok token, w1) ->
  polled token voice_id lang delay (Z.to_nat max_retries) w1 (snd (poll w)) /\
  same_credential w1 (snd (poll w)).
Proof.
  intros Hget. rewrite query_recognition_result_unfold, Hget.
  destruct (poll_loop_frame env token voice_id lang max_retries delay
              (Z.to_nat max_retries) 0 w1) as (Hp & Hc & _).
  split; assumption.
Qed.

(** C7. When the answer to the query of attempt [k] (counted from 0)
    is an object with a [result] field, the call returns that field at
    once: [k + 1] sleeps and [k + 1] queries have happened, and none
    follows. *)
Theorem poll_short_circuit (w w1 : world) (token : json) (k : nat)
        (fields : list (string * json)) (v : json) :
  0 <= delay ->
  get_access_token env w = (Ok token, w1) ->
  (k < Z.to_nat max_retries)%nat ->
  (forall j, (j < k)%nat ->
     is_success (attempt_verdict (query_endpoint env (count is_query (trace w1) + j)))
     = false) ->
  outcome (query_endpoint env (count is_query (trace w1) + k)) = HttpJson (JObj fields) ->
  Py.assoc "result" fields = Some v ->
  exists w2 evs,
    poll w = (Ok v, w2) /\
    trace w2 = trace w1 ++ evs /\
    count is_query evs = S k /\ count is_sleep evs = S k /\
    last evs = Some (now w2 - elapsed (query_endpoint env (count is_query (trace w1) + k)),
                     Query token voice_id lang).
Proof.
  intros Hd Hget Hk Hskip Hr Hv.
  rewrite query_recognition_result_unfold, Hget.
  destruct (poll_loop_skip env token voice_id lang max_retries delay k
              (S (Z.to_nat max_retries - S k)) 0 w1 Hd ltac:(lia) Hskip)
    as (w' & evs & Hrun & Ht & Hq & Hs).
  replace (k + S (Z.to_nat max_retries - S k))%nat with (Z.to_nat max_retries) in Hrun by lia.
  rewrite Hrun, (poll_loop_step _ _ _ _ _ _ _ _ _ Hd).
  assert (Hidx : count is_query (trace w') = (count is_query (trace w1) + k)%nat).
  { rewrite Ht, count_app, Hq. reflexivity. }
  rewrite Hidx. unfold attempt_verdict.
  rewrite Hr, (classify_response_result fields v Hv).
  exists (after_attempt env token voice_id lang delay w'),
         (evs ++ [(now w', Sleep delay); (now w' + delay, Query token voice_id lang)]).
  split; [reflexivity|].
  rewrite trace_after_attempt, Ht, <- !app_assoc.
  split; [reflexivity|].
  rewrite !count_app, Hq, Hs.
  split; [unfold count; cbn; lia|]. split; [unfold count; cbn; lia|].
  rewrite last_app. cbn [last]. f_equal. f_equal.
  unfold after_attempt. cbn [now set_now]. rewrite Ht, count_app, Hq. lia.
Qed.

(** C6. When none of the attempts produces a text or a rejection, the
    call raises an exhausted error after sending every one of its
    [max_retries] queries, so that a transport failure on an attempt
    that is not the last is followed by the next attempt.  A transport
    failure on the last attempt is raised as "Failed to get recognition
    result after [max_retries] attempts" around that failure; a last
    attempt that falls through, or no attempt at all, gives "Max retries
    exceeded". *)
Theorem poll_exhausted (w w1 : world) (token : json) :
  0 <= delay ->
  get_access_token env w = (Ok token, w1) ->
  let answer_of (j : nat) := query_endpoint env (count is_query (trace w1) + j) in
  (forall j, (j < Z.to_nat max_retries)%nat ->
     inconclusive (attempt_verdict (answer_of j)) = true) ->
  exists e w2 evs,
    poll w = (Raise e, w2) /\
    exhausted e = true /\
    trace w2 = trace w1 ++ evs /\
    count is_query evs = Z.to_nat max_retries /\
    (forall detail,
       0 < max_retries ->
       outcome (answer_of (Z.to_nat max_retries - 1)%nat) = HttpFail detail ->
       e = QueryFailed max_retries (RequestError detail)) /\
    (0 < max_retries ->
     attempt_verdict (answer_of (Z.to_nat max_retries - 1)%nat) = Ok Next ->
     e = MaxRetriesExceeded) /\
    (max_retries <= 0 -> e = MaxRetriesExceeded).
Proof.
  intros Hd Hget answer_of Hall.
  rewrite query_recognition_result_unfold, Hget.
  destruct (Z.to_nat max_retries) as [|m] eqn:Hn.
  - exists MaxRetriesExceeded, w1, []. rewrite app_nil_r.
    repeat split; intros; lia.
  - destruct (poll_loop_skip env token voice_id lang max_retries delay m 1 0 w1 Hd)
      as (w' & evs & Hrun & Ht & Hq & Hs).
    + lia.
    + intros j Hj. apply inconclusive_not_success, Hall. lia.
    + replace (S m) with (m + 1)%nat by lia.
      rewrite Hrun, (poll_loop_step _ _ _ _ _ _ _ _ _ Hd).
      assert (Hidx : count is_query (trace w') = (count is_query (trace w1) + m)%nat).
      { rewrite Ht, count_app, Hq. reflexivity. }
      rewrite Hidx. fold (answer_of m).
      replace (m + 1 - 1)%nat with m by lia.
      specialize (Hall m ltac:(lia)).
      assert (Htrace : trace (after_attempt env token voice_id lang delay w')
                       = trace w1 ++ (evs ++ [(now w', Sleep delay);
                                              (now w' + delay, Query token voice_id lang)])).
      { rewrite trace_after_attempt, Ht, <- app_assoc. reflexivity. }
      assert (Hcount : count is_query (evs ++ [(now w', Sleep delay);
                                               (now w' + delay, Query token voice_id lang)])
                       = (m + 1)%nat).
      { rewrite count_app, Hq. reflexivity. }
      destruct (attempt_verdict (answer_of m)) as [[v|]|e] eqn:Hverdict.
      * discriminate Hall.
      * eexists _, _, _. cbn [poll_loop]. unfold raise.
        split; [reflexivity|]. split; [reflexivity|].
        split; [exact Htrace|]. split; [exact Hcount|].
        split; [|split; reflexivity].
        intros detail _ Hfail. unfold attempt_verdict in Hverdict.
        rewrite Hfail in Hverdict. discriminate.
      * destruct (Z.eqb_spec (0 + Z.of_nat m) (max_retries - 1)) as [_|Hne]; [|lia].
        eexists _, _, _. split; [reflexivity|].
        split; [exact Hall|].
        split; [exact Htrace|]. split; [exact Hcount|].
        split; [|split; [discriminate | lia]].
        intros detail _ Hfail. unfold attempt_verdict in Hverdict.
        rewrite Hfail in Hverdict. congruence.
Qed.

End Polling.

Section Submit.

Variable env : environment.
Variables (audio_file_path lang : string).

Local Abbreviation upload := (upload_voice_for_recognition env audio_file_path lang).

Lemma upload_no_credential (w w1 : world) (e : exn) :
  get_access_token env w = (Raise e, w1) ->
  upload w = (Raise e, w1).
Proof. intros H. unfold upload_voice_for_recognition. run. now rewrite H. Qed.

Lemma upload_missing_file (w w1 : world) (token : json) :
  get_access_token env w = (Ok token, w1) ->
  audio_file_path ∉ files w1 ->
  upload w = (Raise (UploadError (FileNotFoundError audio_file_path)),
              set_uuids (S (uuids w1)) w1).
Proof.
  intros H Hf. unfold upload_voice_for_recognition, fresh_uuid, file_exists. run.
  rewrite H. cbn. rewrite bool_decide_eq_false_2 by exact Hf. reflexivity.
Qed.

Lemma upload_sent (w w1 : world) (token : json) :
  get_access_token env w = (Ok token, w1) ->
  audio_file_path ∈ files w1 ->
  upload w =
    (match outcome (upload_endpoint env (count is_upload (trace w1))) with
     | HttpFail detail => Raise (UploadError (RequestError detail))
     | HttpJson result =>
         match Py.get result "errcode" JNull with
         | Raise e => Raise (UploadError e)
         | Ok errcode =>
             if Py.eq_zero errcode then Ok (uuid4 env (uuids w1))
             else match Py.get result "errmsg" (JStr "Unknown error") with
                  | Ok error_msg => Raise (UploadError (UploadRejected error_msg))
                  | Raise e => Raise (UploadError e)
                  end
         end
     end,
     after_upload env token audio_file_path lang w1).
Proof.
  intros H Hf. unfold upload_voice_for_recognition, fresh_uuid, file_exists, http. run.
  rewrite H. cbn. rewrite bool_decide_eq_true_2 by exact Hf. cbn.
  unfold after_upload.
  destruct (outcome (upload_endpoint env (count is_upload (trace w1)))) as [d|result];
    [reflexivity|].
  cbn. destruct (Py.get result "errcode" JNull) as [errcode|e]; [|reflexivity].
  cbn. destruct (Py.eq_zero errcode); [reflexivity|].
  destruct (Py.get result "errmsg" (JStr "Unknown error")); reflexivity.
Qed.

Lemma upload_files (w : world) : files (snd (upload w)) = files w.
Proof.
  pose proof (get_access_token_frame env w) as [(_ & _ & Hf & _) _]. cbn zeta in Hf.
  destruct (get_access_token env w) as [[token|e] w1] eqn:Hget; cbn [snd] in Hf.
  - destruct (decide (audio_file_path ∈ files w1)) as [Hin|Hout].
    + rewrite (upload_sent w w1 token Hget Hin). exact Hf.
    + rewrite (upload_missing_file w w1 token Hget Hout). exact Hf.
  - rewrite (upload_no_credential w w1 e Hget). exact Hf.
Qed.

(** C8, as the code has it.  A call never sends more than one submit
    request.  Once the credential is obtained and the audio file can be
    opened, the call
    draws the next identifier of the generator (so no later call draws
    it again), sends exactly one submit request carrying it, and
    returns that identifier when the answer has a zero error code; on
    any other answer it raises "Voice upload error", around "Upload
    failed" with the remote message when the answer is an object. *)
Theorem upload_submits_once (w : world) :
  (count is_upload (trace (snd (upload w))) <= count is_upload (trace w) + 1)%nat
  /\
  (forall (w1 : world) (token : json),
     get_access_token env w = (Ok token, w1) ->
     audio_file_path ∈ files w1 ->
     let voice_id := uuid4 env (uuids w1) in
     let r := upload_endpoint env (count is_upload (trace w1)) in
     exists (answer : completion string) (w' : world),
       upload w = (answer, w') /\
       trace w' = trace w1 ++ [(now w1, Upload token voice_id lang audio_file_path)] /\
       uuids w' = S (uuids w1) /\
       if accepted r then answer = Ok voice_id
       else exists cause,
           answer = Raise (UploadError cause) /\
           (forall detail, outcome r = HttpFail detail -> cause = RequestError detail) /\
           (forall fields, outcome r = HttpJson (JObj fields) ->
                           cause = UploadRejected (remote_message fields))).
Proof.
  split.
  - pose proof (get_access_token_frame env w) as [_ Ht]. cbn zeta in Ht.
    assert (Hpre : count is_upload (trace (snd (get_access_token env w)))
                   = count is_upload (trace w)).
    { destruct Ht as [->| ->]; [reflexivity|]. rewrite count_app. unfold count. cbn. lia. }
    destruct (get_access_token env w) as [[token|e] w1] eqn:Hget; cbn [snd] in Hpre.
    + destruct (decide (audio_file_path ∈ files w1)) as [Hin|Hout].
      * rewrite (upload_sent w w1 token Hget Hin). cbn [snd].
        unfold after_upload, set_now, record. cbn [trace set_uuids].
        rewrite count_app, Hpre. unfold count. cbn. lia.
      * rewrite (upload_missing_file w w1 token Hget Hout). cbn [snd set_uuids trace].
        rewrite Hpre. lia.
    + rewrite (upload_no_credential w w1 e Hget). cbn [snd]. rewrite Hpre. lia.
  - intros w1 token Hget Hin voice_id r.
    rewrite (upload_sent w w1 token Hget Hin). eexists _, _.
    split; [reflexivity|]. split; [reflexivity|]. split; [reflexivity|].
    unfold accepted, remote_message. fold r.
    destruct (outcome r) as [d|result].
    + eexists. split; [reflexivity|]. split; congruence.
    + destruct result as [| | | | |fields]; cbn;
        try (eexists; split; [reflexivity|]; split; congruence).
      assert (Hmsg : Py.get (JObj fields) "errmsg" (JStr "Unknown error")
                     = Ok (remote_message fields)).
      { unfold remote_message. cbn. destruct (Py.assoc "errmsg" fields); reflexivity. }
      cbn in Hmsg. rewrite Hmsg.
      destruct (Py.assoc "errcode" fields) as [errcode|]; cbn.
      * destruct (Py.eq_zero errcode); [reflexivity|].
        eexists. split; [reflexivity|]. split; [congruence|].
        intros fields' [= <-]. reflexivity.
      * eexists. split; [reflexivity|]. split; [congruence|].
        intros fields' [= <-]. reflexivity.
Qed.

End Submit.

Section Pipeline.

Variable env : environment.

Lemma poll_files (voice_id lang : string) (max_retries delay : Z) (w : world) :
  files (snd (query_recognition_result env voice_id lang max_retries delay w)) = files w.
Proof.
  rewrite query_recognition_result_unfold.
  pose proof (get_access_token_frame env w) as [(_ & _ & Hf & _) _]. cbn zeta in Hf.
  destruct (get_access_token env w) as [[token|e] w1]; cbn [snd] in Hf |- *; [|exact Hf].
  destruct (poll_loop_frame env token voice_id lang max_retries delay
              (Z.to_nat max_retries) 0 w1) as (_ & _ & (_ & _ & Hl & _)).
  now rewrite Hl.
Qed.

Lemma remove_if_exists_files (path : string) (w : world) :
  files (remove_if_exists path w) = files w ∖ {[path]}.
Proof.
  unfold remove_if_exists. destruct (decide (path ∈ files w)) as [Hin|Hout].
  - rewrite bool_decide_eq_true_2 by exact Hin. reflexivity.
  - rewrite bool_decide_eq_false_2 by exact Hout.
    symmetry. apply difference_disjoint_L, disjoint_singleton_r, Hout.
Qed.

Lemma upload_then_query_files (converted_audio lang : string) (w : world) :
  files (snd (upload_then_query env converted_audio lang w)) = files w.
Proof.
  unfold upload_then_query, bind.
  pose proof (upload_files env converted_audio lang w) as Hu.
  destruct (upload_voice_for_recognition env converted_audio lang w) as [[voice_id|e] w2];
    cbn [snd] in Hu |- *; [|exact Hu].
  now rewrite poll_files.
Qed.

(** A path comes back from the conversion only after the export has
    written it. *)
Lemma convert_audio_to_mp3_created (input_path : string) (output_path : option string)
      (w w1 : world) (converted : string) :
  convert_audio_to_mp3 env input_path output_path w = (Ok converted, w1) ->
  converted ∈ files w1 /\ files w1 = {[converted]} ∪ files w.
Proof.
  unfold convert_audio_to_mp3, file_exists. run.
  destruct (bool_decide (input_path ∈ files w)); cbn; [|discriminate].
  destruct (encoder env input_path _) as [d|d [|]|]; cbn; try discriminate.
  intros [= <- <-]. cbn. split; [|reflexivity].
  apply elem_of_union_l, elem_of_singleton. reflexivity.
Qed.

(** When the conversion raises, [converted_audio] was never bound: the
    [finally] block removes nothing and the state is the one the
    conversion left. *)
Lemma recognize_speech_without_artifact (audio_file_path lang : string) (w w1 : world)
      (e : exn) :
  convert_audio_to_mp3 env audio_file_path None w = (Raise e, w1) ->
  recognize_speech env audio_file_path lang w = (Raise (SpeechError e), w1).
Proof. intros H. unfold recognize_speech. now rewrite H. Qed.

(** C4, as the code has it.  Once the conversion has returned the path
    of the transcoded file, that file is gone when [recognize_speech]
    returns or raises, however the upload and the polling end: the
    files left are those present after the conversion minus the
    transcoded one. *)
Theorem recognize_speech_cleanup (audio_file_path lang : string) (w w1 : world)
        (converted : string) :
  convert_audio_to_mp3 env audio_file_path None w = (Ok converted, w1) ->
  converted ∈ files w1 /\
  exists (answer : completion json) (w' : world),
    recognize_speech env audio_file_path lang w = (answer, w') /\
    (converted ∉ files w') /\
    files w' = files w1 ∖ {[converted]} /\
    ((exists text, answer = Ok text) \/ (exists e, answer = Raise (SpeechError e))).
Proof.
  intros Hconv.
  destruct (convert_audio_to_mp3_created _ _ _ _ _ Hconv) as [Hin _].
  split; [exact Hin|].
  unfold recognize_speech. rewrite Hconv.
  pose proof (upload_then_query_files converted lang w1) as Hfiles.
  destruct (upload_then_query env converted lang w1) as [[text|e] w2];
    cbn [snd] in Hfiles;
    (eexists _, _; split; [reflexivity|]);
    rewrite remove_if_exists_files, Hfiles;
    (split; [apply not_elem_of_difference; right; apply elem_of_singleton; reflexivity|]);
    (split; [reflexivity|]); eauto.
Qed.

End Pipeline.

(** * The statements on concrete runs *)

Section Runs.

Import Scenario.

(** The transient pattern is matched anywhere in the message and in any
    letter case. *)
Example transient_messages :
  Py.contains "busy" (Py.lower "Server BUSY, retry") = true /\
  Py.contains "wait" (Py.lower "please Wait") = true /\
  Py.contains "busy" (Py.lower "invalid voice") || Py.contains "wait" (Py.lower "invalid voice")
  = false.
Proof. repeat split. Qed.

(** The whole pipeline on the recording: two answers without a result,
    then a text.  The text comes back after exactly three queries, and
    the transcoded file is gone. *)
Example three_polls :
  let run := recognize_speech (pipeline [not_ready; not_ready; recognised])
               "audio.wav" "zh_CN" fresh in
  fst run = Ok (JStr "hello world") /\
  count is_query (trace (snd run)) = 3%nat /\
  count is_upload (trace (snd run)) = 1%nat /\
  elements (files (snd run)) = ["audio.wav"].
Proof. vm_compute. repeat split. Qed.

(** Three answers without a result and three attempts: the loop runs
    out. *)
Example three_polls_not_ready :
  fst (query_recognition_result (polling [not_ready; not_ready; not_ready])
         "abc-123" "zh_CN" 3 1 (holding 100000))
  = Raise MaxRetriesExceeded.
Proof. vm_compute. reflexivity. Qed.

(** A rejection on the last attempt leaves the loop inside the error of
    line 185. *)
Example rejection_on_last_attempt :
  fst (query_recognition_result (polling [invalid_voice])
         "abc-123" "zh_CN" 1 1 (holding 100000))
  = Raise (QueryFailed 1 (RecognitionError (JStr "invalid voice"))).
Proof. vm_compute. reflexivity. Qed.

(** An answer that carries [access_token] next to an [expires_in] that
    is not a number: line 38 has stored the token when line 40 raises,
    and the expiry keeps its old value. *)
Example token_stored_before_expiry :
  let run := get_access_token
               (remote [JObj [("access_token", JStr "T2"); ("expires_in", JStr "soon")]]
                       [] [] ExportOk)
               (holding 1200) in
  fst run = Raise (TokenError TypeError) /\
  access_token (snd run) = JStr "T2" /\
  token_expire_time (snd run) = 1200.
Proof. vm_compute. repeat split. Qed.

(** A failing export may leave its output file behind; nothing removes
    it, as the conversion never returned its path. *)
Example export_failure_leaves_file :
  let run := recognize_speech (remote [token_ok] [] [] (ExportFail "encoder exited" true))
               "audio.wav" "zh_CN" fresh in
  fst run = Raise (SpeechError (ConversionError (CodecError "encoder exited"))) /\
  bool_decide ("audio_converted.mp3" ∈ files (snd run)) = true.
Proof. vm_compute. repeat split. Qed.

(** C1. A rejection on an attempt that is not the last does not end the
    call.  Here the first answer is [{errcode: 2, errmsg: "invalid
    voice"}], which line 179 raises as "Recognition error"; the handler
    of line 183 catches it, a second query goes out, and the call
    returns the text of the second answer. *)
Theorem rejection_caught_and_retried :
  classify_response invalid_voice = Raise (RecognitionError (JStr "invalid voice")) /\
  classify_response busy = Ok Next /\
  fst rejected_then_recognised = Ok (JStr "hello world") /\
  trace (snd rejected_then_recognised) =
    [(1000, Sleep 1); (1001, Query (JStr "T") "abc-123" "zh_CN");
     (1002, Sleep 1); (1003, Query (JStr "T") "abc-123" "zh_CN")].
Proof. vm_compute. repeat split. Qed.

(** C2 fails as stated: the token ["T"] stops being accepted at time
    1300; the second query goes out at 1401, still carrying it, and no
    token request is ever sent. *)
Lemma stale_credential_not_refreshed :
  ~ every_query_has_valid_credential (snd slow_poll) /\
  count is_fetch (trace (snd slow_poll)) = 0%nat /\
  token_expire_time (snd slow_poll) - 300 = 1300 /\
  trace (snd slow_poll) =
    [(1000, Sleep 200); (1200, Query (JStr "T") "abc-123" "zh_CN");
     (1201, Sleep 200); (1401, Query (JStr "T") "abc-123" "zh_CN")].
Proof.
  split; [|split; [|split]].
  - unfold every_query_has_valid_credential. vm_compute. discriminate.
  - vm_compute. reflexivity.
  - vm_compute. reflexivity.
  - vm_compute. reflexivity.
Qed.

Lemma poll_single_lookup_witness :
  polled (JStr "T") "abc-123" "zh_CN" 200 (Z.to_nat 2) (holding 1600)
         (snd (query_recognition_result (polling [not_ready; recognised])
                 "abc-123" "zh_CN" 2 200 (holding 1600))) /\
  same_credential (holding 1600)
         (snd (query_recognition_result (polling [not_ready; recognised])
                 "abc-123" "zh_CN" 2 200 (holding 1600))).
Proof.
  apply (poll_single_lookup (polling [not_ready; recognised]) "abc-123" "zh_CN" 2 200
           (holding 1600) (holding 1600) (JStr "T")).
  reflexivity.
Defined.

Lemma get_access_token_reuse_or_refresh_witness :
  get_access_token (pipeline []) (holding 1600) = (Ok (JStr "T"), holding 1600) /\
  trace (snd (get_access_token (pipeline []) (holding 1200)))
  = trace (holding 1200) ++ [(now (holding 1200), TokenFetch "wx-app" "wx-secret")] /\
  exists w',
    get_access_token (pipeline []) (holding 1200) = (Ok (JStr "T2"), w') /\
    access_token w' = JStr "T2" /\
    token_expire_time w' = 1000 + 1 + 3600 /\
    now w' = 1000 + 1 /\
    trace w' = [(1000, TokenFetch "wx-app" "wx-secret")] /\
    same_store (holding 1200) w'.
Proof.
  assert (Hlate : token_expire_time (holding 1200) - 300 <= now (holding 1200))
    by (vm_compute; discriminate).
  split; [|split].
  - apply (proj1 (get_access_token_reuse_or_refresh (pipeline []) (holding 1600))).
    + reflexivity.
    + vm_compute. reflexivity.
  - exact (proj1 (proj2 (get_access_token_reuse_or_refresh (pipeline []) (holding 1200)))
             (or_intror Hlate)).
  - assert (Hanswer : outcome (token_endpoint (pipeline [])
                                 (count is_fetch (trace (holding 1200))))
                      = HttpJson token_ok)
      by (vm_compute; reflexivity).
    assert (Hsmall : Z.abs 3600 < 2 ^ 53) by (vm_compute; reflexivity).
    assert (Hsum : Z.abs (now (holding 1200)
                          + elapsed (token_endpoint (pipeline [])
                                       (count is_fetch (trace (holding 1200))))
                          + 3600) < 2 ^ 53)
      by (vm_compute; reflexivity).
    exact (proj2 (proj2 (get_access_token_reuse_or_refresh (pipeline []) (holding 1200)))
             (or_intror Hlate)
             [("access_token", JStr "T2"); ("expires_in", JNum 3600)]
             (JStr "T2") 3600 Hanswer eq_refl (or_introl eq_refl) Hsmall Hsum).
Defined.

Lemma get_access_token_failure_keeps_cache_witness :
  exists e w',
    get_access_token (remote [token_denied] [] [] ExportOk) (holding 1200)
    = (Raise (TokenError e), w') /\
    same_credential (holding 1200) w' /\
    w' = after_fetch (remote [token_denied] [] [] ExportOk) (holding 1200).
Proof.
  apply (get_access_token_failure_keeps_cache (remote [token_denied] [] [] ExportOk)
           (holding 1200)).
  - right. vm_compute. discriminate.
  - right. exists token_denied. split; [reflexivity | vm_compute; discriminate].
Defined.

Lemma poll_query_budget_witness :
  exists evs,
    trace (snd (query_recognition_result (polling [busy; busy; busy; busy])
                  "abc-123" "zh_CN" 3 1 (holding 100000)))
    = trace (holding 100000) ++ evs /\
    Z.of_nat (count is_query evs) <= 3.
Proof.
  apply (poll_query_budget (polling [busy; busy; busy; busy]) "abc-123" "zh_CN" 3 1
           (holding 100000)).
  lia.
Defined.


Lemma poll_short_circuit_witness :
  exists w2 evs,
    query_recognition_result (polling [not_ready; not_ready; recognised])
      "abc-123" "zh_CN" 5 1 (holding 100000)
    = (Ok (JStr "hello world"), w2) /\
    trace w2 = trace (holding 100000) ++ evs /\
    count is_query evs = 3%nat /\ count is_sleep evs = 3%nat /\
    last evs = Some (now w2 - 1, Query (JStr "T") "abc-123" "zh_CN").
Proof.
  apply (poll_short_circuit (polling [not_ready; not_ready; recognised])
           "abc-123" "zh_CN" 5 1 (holding 100000) (holding 100000) (JStr "T") 2
           [("result", JStr "hello world")] (JStr "hello world")).
  - lia.
  - reflexivity.
  - vm_compute. lia.
  - intros j Hj. destruct j as [|[|j]]; [reflexivity | reflexivity | lia].
  - reflexivity.
  - reflexivity.
Defined.

Lemma poll_exhausted_witness :
  exists e w2 evs,
    query_recognition_result (polling [not_ready; busy])
      "abc-123" "zh_CN" 3 1 (holding 100000)
    = (Raise e, w2) /\
    exhausted e = true /\
    trace w2 = trace (holding 100000) ++ evs /\
    count is_query evs = 3%nat /\
    e = QueryFailed 3 (RequestError "connection refused").
Proof.
  destruct (poll_exhausted (polling [not_ready; busy]) "abc-123" "zh_CN" 3 1
              (holding 100000) (holding 100000) (JStr "T") ltac:(lia) eq_refl)
    as (e & w2 & evs & Hrun & Hex & Ht & Hq & Hlast & _).
  - intros j Hj. destruct j as [|[|[|j]]]; [reflexivity | reflexivity | reflexivity |].
    vm_compute in Hj. lia.
  - exists e, w2, evs. repeat split; try assumption.
    apply Hlast; [lia | reflexivity].
Defined.

Lemma upload_submits_once_witness :
  exists (w' : world),
    upload_voice_for_recognition (pipeline []) "audio.wav" "zh_CN" fresh
    = (Ok "abc-123", w') /\
    trace w' = [(1000, TokenFetch "wx-app" "wx-secret");
                (1001, Upload (JStr "T2") "abc-123" "zh_CN" "audio.wav")] /\
    uuids w' = 1%nat.
Proof.
  assert (Hget : get_access_token (pipeline []) fresh
                 = (Ok (JStr "T2"), snd (get_access_token (pipeline []) fresh)))
    by (vm_compute; reflexivity).
  assert (Hfile : "audio.wav" ∈ files (snd (get_access_token (pipeline []) fresh)))
    by (apply (bool_decide_unpack _); vm_compute; exact I).
  destruct (proj2 (upload_submits_once (pipeline []) "audio.wav" "zh_CN" fresh)
              _ _ Hget Hfile) as (answer & w' & Hrun & Ht & Hu & Hanswer).
  vm_compute in Hanswer. subst answer.
  exists w'. split; [exact Hrun|]. split; [exact Ht | exact Hu].
Defined.

Lemma recognize_speech_cleanup_witness :
  "audio_converted.mp3" ∈ files converted /\
  exists (answer : completion json) (w' : world),
    recognize_speech (pipeline [not_ready; not_ready; recognised])
      "audio.wav" "zh_CN" fresh = (answer, w') /\
    ("audio_converted.mp3" ∉ files w') /\
    files w' = files converted ∖ {["audio_converted.mp3"]} /\
    ((exists text, answer = Ok text) \/ (exists e, answer = Raise (SpeechError e))).
Proof.
  apply (recognize_speech_cleanup (pipeline [not_ready; not_ready; recognised])
           "audio.wav" "zh_CN" fresh converted "audio_converted.mp3").
  vm_compute. reflexivity.
Defined.

End Runs.


(** * Further properties of the polling loop *)

Section PollLoop.

Variable env : environment.
Variables (token : json) (voice_id lang : string) (max_retries delay : Z).

Local Abbreviation loop := (poll_loop env token voice_id lang max_retries delay).
Local Abbreviation next := (after_attempt env token voice_id lang delay).

(** With an accepted sleep, what the loop appends to the trace is a
    sequence of sleep-query pairs. *)
Lemma poll_loop_paired (remaining : nat) :
  forall (attempt_no : Z) (w : world),
    0 <= delay ->
    exists evs,
      trace (snd (loop remaining attempt_no w)) = trace w ++ evs /\
      paired token voice_id lang delay evs.
Proof.
  induction remaining as [|remaining IH]; intros attempt_no w Hd.
  - exists []. cbn. rewrite app_nil_r. split; [reflexivity | exact I].
  - rewrite (poll_loop_step _ _ _ _ _ _ _ _ _ Hd).
    assert (Hstop : exists evs, trace (next w) = trace w ++ evs /\
                                paired token voice_id lang delay evs).
    { eexists. split; [apply trace_after_attempt|]. cbn. repeat split. }
    assert (Hgo : exists evs,
               trace (snd (loop remaining (attempt_no + 1) (next w))) = trace w ++ evs /\
               paired token voice_id lang delay evs).
    { destruct (IH (attempt_no + 1) (next w) Hd) as (evs & Ht & Hp).
      exists ([(now w, Sleep delay); (now w + delay, Query token voice_id lang)] ++ evs).
      rewrite Ht, trace_after_attempt, <- app_assoc. split; [reflexivity|].
      cbn. repeat split. exact Hp. }
    destruct (attempt_verdict _) as [[v|]|e]; [exact Hstop | exact Hgo |].
    destruct (attempt_no =? max_retries - 1); [exact Hstop | exact Hgo].
Qed.

(** The loop raises only once all the iterations it was given are used. *)
Lemma poll_loop_raise_uses_budget (remaining : nat) :
  forall (attempt_no : Z) (w : world) (e : exn),
    0 <= delay ->
    remaining = 0%nat \/ attempt_no + Z.of_nat remaining = max_retries ->
    fst (loop remaining attempt_no w) = Raise e ->
    exists evs,
      trace (snd (loop remaining attempt_no w)) = trace w ++ evs /\
      count is_query evs = remaining /\ count is_sleep evs = remaining.
Proof.
  induction remaining as [|remaining IH]; intros attempt_no w e Hd Hinv Hraise.
  - exists []. cbn. rewrite app_nil_r. repeat split.
  - destruct Hinv as [Hinv|Hinv]; [discriminate|].
    rewrite (poll_loop_step _ _ _ _ _ _ _ _ _ Hd) in Hraise |- *.
    assert (Hgo : forall e',
               fst (loop remaining (attempt_no + 1) (next w)) = Raise e' ->
               exists evs,
                 trace (snd (loop remaining (attempt_no + 1) (next w))) = trace w ++ evs /\
                 count is_query evs = S remaining /\ count is_sleep evs = S remaining).
    { intros e' He'.
      destruct (IH (attempt_no + 1) (next w) e' Hd) as (evs & Ht & Hq & Hs);
        [destruct remaining; [now left | right; lia] | exact He' |].
      exists ([(now w, Sleep delay); (now w + delay, Query token voice_id lang)] ++ evs).
      rewrite Ht, trace_after_attempt, <- app_assoc. split; [reflexivity|].
      rewrite !count_app, Hq, Hs. split; reflexivity. }
    destruct (attempt_verdict _) as [[v|]|e0]; [discriminate Hraise | eapply Hgo, Hraise |].
    destruct (Z.eqb_spec attempt_no (max_retries - 1)) as [Hlast|Hnot];
      [|eapply Hgo, Hraise].
    assert (remaining = 0%nat) as -> by lia.
    eexists. split; [apply trace_after_attempt|]. split; reflexivity.
Qed.

(** Whatever the answers and the delay, the loop ends in a text, in the
    error of line 185 or in the error of line 188. *)
Lemma poll_loop_outcome (remaining : nat) :
  forall (attempt_no : Z) (w : world),
    0 <= attempt_no ->
    (exists v, fst (loop remaining attempt_no w) = Ok v) \/
    fst (loop remaining attempt_no w) = Raise MaxRetriesExceeded \/
    (exists cause, fst (loop remaining attempt_no w) = Raise (QueryFailed max_retries cause) /\
                   1 <= max_retries).
Proof.
  induction remaining as [|remaining IH]; intros attempt_no w Ha.
  - right. left. reflexivity.
  - destruct (Z_lt_le_dec delay 0) as [Hneg|Hpos].
    + rewrite (poll_loop_step_refused _ _ _ _ _ _ _ _ _ Hneg).
      destruct (Z.eqb_spec attempt_no (max_retries - 1)).
      * right. right. eexists. split; [reflexivity | lia].
      * apply IH. lia.
    + rewrite (poll_loop_step _ _ _ _ _ _ _ _ _ Hpos).
      destruct (attempt_verdict _) as [[v|]|e].
      * left. eexists. reflexivity.
      * apply IH. lia.
      * destruct (Z.eqb_spec attempt_no (max_retries - 1)).
        -- right. right. eexists. split; [reflexivity | lia].
        -- apply IH. lia.
Qed.

(** With a refused sleep nothing happens at all: the state is untouched
    and the first error is met on the last iteration. *)
Lemma poll_loop_refused (remaining : nat) :
  forall (attempt_no : Z) (w : world),
    delay < 0 ->
    remaining = 0%nat \/ attempt_no + Z.of_nat remaining = max_retries ->
    loop remaining attempt_no w =
      (Raise (match remaining with
              | O => MaxRetriesExceeded
              | S _ => QueryFailed max_retries ValueError
              end), w).
Proof.
  induction remaining as [|remaining IH]; intros attempt_no w Hd Hinv.
  - reflexivity.
  - destruct Hinv as [Hinv|Hinv]; [discriminate|].
    rewrite (poll_loop_step_refused _ _ _ _ _ _ _ _ _ Hd).
    destruct (Z.eqb_spec attempt_no (max_retries - 1)) as [Hlast|Hnot]; [reflexivity|].
    rewrite IH; [|exact Hd|right; lia].
    destruct remaining; [lia | reflexivity].
Qed.

(** A text comes out of the classification only for an object with a
    [result] field, and it is that field. *)
Lemma classify_response_return_inv (data : json) (v : json) :
  classify_response data = Ok (Return v) ->
  exists fields, data = JObj fields /\ Py.assoc "result" fields = Some v.
Proof.
  unfold classify_response.
  destruct data as [| b | n | s | items | fields]; cbn; try discriminate.
  - destruct (Py.contains "result" s); discriminate.
  - destruct (existsb _ items); discriminate.
  - destruct (Py.assoc "result" fields) as [x|] eqn:Hres; cbn.
    + intros [= <-]. exists fields. split; [reflexivity | exact Hres].
    + destruct (Py.assoc "errcode" fields) as [errcode|]; cbn;
        [destruct (Py.eq_zero errcode); cbn; [discriminate|]|];
        (destruct (Py.assoc "errmsg" fields) as [m|]; cbn;
         [destruct m; cbn; try discriminate;
          match goal with |- context [if ?c then _ else _] => destruct c end; discriminate
         |discriminate]).
Qed.

(** With a refused sleep the loop never returns. *)
Lemma poll_loop_refused_no_return (remaining : nat) :
  forall (attempt_no : Z) (w w' : world) (v : json),
    delay < 0 -> loop remaining attempt_no w <> (Ok v, w').
Proof.
  induction remaining as [|remaining IH]; intros attempt_no w w' v Hneg Hrun.
  - discriminate.
  - rewrite (poll_loop_step_refused _ _ _ _ _ _ _ _ _ Hneg) in Hrun.
    destruct (attempt_no =? max_retries - 1); [discriminate|].
    exact (IH _ _ _ _ Hneg Hrun).
Qed.

(** The loop returns only what an answer to one of its queries carried
    in [result], and stops at that query. *)
Lemma poll_loop_return_inv (remaining : nat) :
  forall (attempt_no : Z) (w w' : world) (v : json),
    loop remaining attempt_no w = (Ok v, w') ->
    exists (k : nat) (fields : list (string * json)) (evs : list (Z * event)),
      (k < remaining)%nat /\
      outcome (query_endpoint env (count is_query (trace w) + k)) = HttpJson (JObj fields) /\
      Py.assoc "result" fields = Some v /\
      trace w' = trace w ++ evs /\
      count is_query evs = S k /\
      exists t, last evs = Some (t, Query token voice_id lang).
Proof.
  induction remaining as [|remaining IH]; intros attempt_no w w' v Hrun.
  - discriminate.
  - destruct (Z_lt_le_dec delay 0) as [Hneg|Hpos].
    + exfalso. exact (poll_loop_refused_no_return _ _ _ _ _ Hneg Hrun).
    + rewrite (poll_loop_step _ _ _ _ _ _ _ _ _ Hpos) in Hrun.
      assert (Hgo : loop remaining (attempt_no + 1) (next w) = (Ok v, w') ->
                    exists k fields evs,
                      (k < S remaining)%nat /\
                      outcome (query_endpoint env (count is_query (trace w) + k))
                      = HttpJson (JObj fields) /\
                      Py.assoc "result" fields = Some v /\
                      trace w' = trace w ++ evs /\
                      count is_query evs = S k /\
                      exists t, last evs = Some (t, Query token voice_id lang)).
      { intros Hrest.
        destruct (IH _ _ _ _ Hrest)
          as (k & fields & evs & Hk & Hans & Hres & Ht & Hq & t & Hlast).
        exists (S k), fields,
          ([(now w, Sleep delay); (now w + delay, Query token voice_id lang)] ++ evs).
        split; [lia|]. split.
        - rewrite (count_query_next env token voice_id lang delay w) in Hans.
          replace (count is_query (trace w) + S k)%nat
            with (S (count is_query (trace w)) + k)%nat by lia.
          exact Hans.
        - split; [exact Hres|]. split.
          + rewrite Ht, (trace_after_attempt env token voice_id lang delay w), <- app_assoc.
            reflexivity.
          + split; [rewrite count_app, Hq; reflexivity|].
            exists t. rewrite last_app, Hlast. reflexivity. }
      destruct (attempt_verdict (query_endpoint env (count is_query (trace w))))
        as [[x|]|e] eqn:Hverdict.
      * injection Hrun as <- <-.
        unfold attempt_verdict in Hverdict.
        destruct (outcome (query_endpoint env (count is_query (trace w))))
          as [d|data] eqn:Hout; [discriminate|].
        destruct (classify_response_return_inv data x Hverdict) as (fields & -> & Hres).
        exists 0%nat, fields,
          [(now w, Sleep delay); (now w + delay, Query token voice_id lang)].
        split; [lia|]. rewrite Nat.add_0_r.
        split; [exact Hout|]. split; [exact Hres|].
        split; [apply trace_after_attempt|]. split; [reflexivity|].
        eexists. reflexivity.
      * apply Hgo, Hrun.
      * destruct (attempt_no =? max_retries - 1); [discriminate | apply Hgo, Hrun].
Qed.

End PollLoop.

Section CredentialMore.

Variable env : environment.

(** What a raising call has done. *)
Lemma get_access_token_raise_inv (w w' : world) (e : exn) :
  get_access_token env w = (Raise e, w') ->
  credential_valid w = false /\
  (exists cause, e = TokenError cause) /\
  token_expire_time w' = token_expire_time w /\
  now w' = now w + elapsed (token_endpoint env (count is_fetch (trace w))).
Proof.
  intros Hrun. destruct (credential_valid w) eqn:Hv.
  - rewrite (get_access_token_cached env w Hv) in Hrun. discriminate.
  - split; [reflexivity|].
    destruct (outcome (token_endpoint env (count is_fetch (trace w)))) as [d|data] eqn:Hr.
    + rewrite (get_access_token_unreachable env w d Hv Hr) in Hrun.
      injection Hrun as <- <-. split; [eexists; reflexivity|]. split; reflexivity.
    + rewrite (get_access_token_answer env w data Hv Hr) in Hrun.
      destruct (Py.has_key "access_token" data) as [[|]|e0];
        [destruct (Py.getitem data "access_token") as [tok|e0];
         [cbn zeta in Hrun;
          destruct (completion_bind (Py.get data "expires_in" (JNum 7200)) _);
          [discriminate|]|]
        |destruct (Py.get data "errmsg" (JStr "Unknown error"))|];
        injection Hrun as <- <-; (split; [eexists; reflexivity|]); split; reflexivity.
Qed.

(** X1. Every exception that leaves [get_access_token] is the "Error
    getting access_token" error of line 47.  It is raised after exactly
    one token request, and the cached expiry is the one from before the
    call. *)
Theorem get_access_token_error_wrapped (w w' : world) (e : exn) :
  get_access_token env w = (Raise e, w') ->
  (exists cause, e = TokenError cause) /\
  token_expire_time w' = token_expire_time w /\
  trace w' = trace w ++ [(now w, TokenFetch (appid w) (appsecret w))] /\
  same_store w w'.
Proof.
  intros Hrun.
  destruct (get_access_token_raise_inv w w' e Hrun) as (Hv & Hwrap & Hexp & _).
  pose proof (get_access_token_fetches env w Hv) as Ht.
  pose proof (get_access_token_frame env w) as [Hst _].
  rewrite Hrun in Ht, Hst. cbn in Ht, Hst.
  split; [exact Hwrap|]. split; [exact Hexp|]. split; [exact Ht | exact Hst].
Qed.

(** A successful refresh, in one equation. *)
Lemma get_access_token_refreshed (w : world) (fields : list (string * json))
      (tok : json) (expires_in : Z) :
  credential_valid w = false ->
  outcome (token_endpoint env (count is_fetch (trace w))) = HttpJson (JObj fields) ->
  Py.assoc "access_token" fields = Some tok ->
  Py.assoc "expires_in" fields = Some (JNum expires_in) \/
  (Py.assoc "expires_in" fields = None /\ expires_in = 7200) ->
  Z.abs expires_in < 2 ^ 53 ->
  Z.abs (now (after_fetch env w) + expires_in) < 2 ^ 53 ->
  get_access_token env w
  = (Ok tok, set_token_expire_time (now (after_fetch env w) + expires_in)
               (set_access_token tok (after_fetch env w))).
Proof.
  intros Hv Hr Htok Hexp Hsmall Hsum.
  rewrite (get_access_token_answer env w _ Hv Hr). cbn. rewrite Htok. cbn.
  assert (Hadd : Py.add (now (after_fetch env w))
                   (match Py.assoc "expires_in" fields with
                    | Some v => v
                    | None => JNum 7200
                    end) = Ok (now (after_fetch env w) + expires_in)).
  { destruct Hexp as [Hexp|[Hexp ->]]; rewrite Hexp; now apply add_exact. }
  cbn in Hadd.
  destruct Hexp as [Hexp|[Hexp Hdef]]; rewrite Hexp in Hadd |- *; cbn;
    rewrite Hadd; reflexivity.
Qed.

(** X2. After a refresh that stored the token with the expiry "clock of
    line 40 plus [expires_in]" (7200 when absent; amounts that doubles
    hold exactly), a later call that finds the cache as the refresh left
    it returns the token without sending anything exactly when the token
    is truthy and the clock of that later call is more than 300 seconds
    before the expiry; otherwise it sends a token request again.  A
    token with [expires_in] of 300 or less is therefore never reused. *)
Theorem refreshed_credential_reuse (w w2 : world) (fields : list (string * json))
        (tok : json) (expires_in : Z) :
  credential_valid w = false ->
  let r := token_endpoint env (count is_fetch (trace w)) in
  outcome r = HttpJson (JObj fields) ->
  Py.assoc "access_token" fields = Some tok ->
  Py.assoc "expires_in" fields = Some (JNum expires_in) \/
  (Py.assoc "expires_in" fields = None /\ expires_in = 7200) ->
  Z.abs expires_in < 2 ^ 53 ->
  Z.abs (now w + elapsed r + expires_in) < 2 ^ 53 ->
  let w' := snd (get_access_token env w) in
  same_credential w' w2 ->
  (Py.truthy tok = true -> now w2 < now w' + expires_in - 300 ->
   get_access_token env w2 = (Ok tok, w2)) /\
  (Py.truthy tok = false \/ now w' + expires_in - 300 <= now w2 ->
   trace (snd (get_access_token env w2))
   = trace w2 ++ [(now w2, TokenFetch (appid w2) (appsecret w2))]) /\
  (expires_in <= 300 -> now w' <= now w2 ->
   trace (snd (get_access_token env w2))
   = trace w2 ++ [(now w2, TokenFetch (appid w2) (appsecret w2))]).
Proof.
  intros Hv r Hr Htok Hexp Hsmall Hsum w' [Hat Het].
  assert (Hw' : access_token w' = tok /\ token_expire_time w' = now w' + expires_in).
  { subst w'.
    rewrite (get_access_token_refreshed w fields tok expires_in Hv Hr Htok Hexp Hsmall Hsum).
    split; reflexivity. }
  destruct Hw' as [Hat' Het'].
  assert (Hvalid : credential_valid w2
                   = Py.truthy tok && (now w2 <? now w' + expires_in - 300)).
  { unfold credential_valid. now rewrite Hat, Het, Hat', Het'. }
  assert (Hfetch : Py.truthy tok = false \/ now w' + expires_in - 300 <= now w2 ->
                   trace (snd (get_access_token env w2))
                   = trace w2 ++ [(now w2, TokenFetch (appid w2) (appsecret w2))]).
  { intros Hno. apply get_access_token_fetches. rewrite Hvalid. apply andb_false_iff.
    destruct Hno as [Hno|Hno]; [now left | right; now apply Z.ltb_ge]. }
  split; [|split].
  - intros Ht Hn. rewrite <- Hat', <- Hat. apply get_access_token_cached.
    rewrite Hvalid, Ht. cbn. now apply Z.ltb_lt.
  - exact Hfetch.
  - intros Hshort Hlater. apply Hfetch. right. lia.
Qed.

(** X3. A service that has just been created holds no credential: its
    first call of [get_access_token] sends a token request with the
    identity it was created with, at the time of the call, whatever the
    remote side answers. *)
Theorem first_call_fetches (id secret : string) (t : Z) (fs : gset string) :
  trace (snd (get_access_token env (init id secret t fs)))
  = [(t, TokenFetch id secret)].
Proof. apply (get_access_token_fetches env (init id secret t fs)). reflexivity. Qed.

End CredentialMore.

Section PollingMore.

Variable env : environment.
Variables (voice_id lang : string) (max_retries delay : Z).

Local Abbreviation poll := (query_recognition_result env voice_id lang max_retries delay).

Lemma query_recognition_result_raise_inv (w : world) (e : exn) :
  fst (poll w) = Raise e ->
  (exists cause, e = TokenError cause) \/
  e = MaxRetriesExceeded \/
  (exists cause, e = QueryFailed max_retries cause /\ 1 <= max_retries).
Proof.
  rewrite query_recognition_result_unfold.
  destruct (get_access_token env w) as [[token|e0] w1] eqn:Hget.
  - intros Hraise.
    destruct (poll_loop_outcome env token voice_id lang max_retries delay
                (Z.to_nat max_retries) 0 w1 ltac:(lia)) as [[v Hv]|[Hm|[c [Hc Hpos]]]].
    + rewrite Hv in Hraise. discriminate.
    + rewrite Hm in Hraise. injection Hraise as <-. right. left. reflexivity.
    + rewrite Hc in Hraise. injection Hraise as <-. right. right. eauto.
  - cbn. intros [= <-]. left.
    apply (get_access_token_raise_inv env w w1 e0 Hget).
Qed.

(** X4. Whatever the answers and the delay, an exception that leaves
    [query_recognition_result] is the credential error, the error of
    line 185 (only possible with at least one attempt) or the error of
    line 188; the rejection of line 179 never leaves on its own. *)
Theorem poll_errors (w : world) (e : exn) :
  fst (poll w) = Raise e ->
  ((exists cause, e = TokenError cause) \/
   e = MaxRetriesExceeded \/
   (exists cause, e = QueryFailed max_retries cause /\ 1 <= max_retries)) /\
  is_permanent e = false.
Proof.
  intros Hraise.
  pose proof (query_recognition_result_raise_inv w e Hraise) as Hshape.
  split; [exact Hshape|].
  destruct Hshape as [[c ->]|[->|[c [-> _]]]]; reflexivity.
Qed.

(** X5. With an accepted sleep, the call gives up only when every one of
    its attempts has been made: if it raises after the credential lookup,
    it has slept and queried [max_retries] times (none when
    [max_retries] is not positive). *)
Theorem poll_gives_up_after_all_attempts (w w1 : world) (token : json) (e : exn) :
  0 <= delay ->
  get_access_token env w = (Ok token, w1) ->
  fst (poll w) = Raise e ->
  exists evs,
    trace (snd (poll w)) = trace w1 ++ evs /\
    count is_query evs = Z.to_nat max_retries /\
    count is_sleep evs = Z.to_nat max_retries.
Proof.
  intros Hd Hget. rewrite query_recognition_result_unfold, Hget. intros Hraise.
  apply (poll_loop_raise_uses_budget env token voice_id lang max_retries delay
           (Z.to_nat max_retries) 0 w1 e Hd); [|exact Hraise].
  destruct (Z.to_nat max_retries) eqn:Hn; [now left | right; lia].
Qed.

(** X6. With a negative delay [time.sleep] refuses every time: no query
    is ever sent and the state after the credential lookup is the final
    state.  The call raises the error of line 185 around the refusal
    when it has at least one attempt, and the error of line 188
    otherwise. *)
Theorem poll_refused_sleep (w w1 : world) (token : json) :
  delay < 0 ->
  get_access_token env w = (Ok token, w1) ->
  poll w = (Raise (if 1 <=? max_retries
                   then QueryFailed max_retries ValueError
                   else MaxRetriesExceeded), w1).
Proof.
  intros Hd Hget. rewrite query_recognition_result_unfold, Hget.
  rewrite (poll_loop_refused env token voice_id lang max_retries delay
             (Z.to_nat max_retries) 0 w1 Hd).
  - destruct (Z.leb_spec 1 max_retries); destruct (Z.to_nat max_retries) eqn:Hn;
      (reflexivity || lia).
  - destruct (Z.to_nat max_retries) eqn:Hn; [now left | right; lia].
Qed.

(** X7. With an accepted sleep, every query is preceded by a sleep of
    [delay] seconds, the first one included, and goes out when that
    sleep ends; nothing else happens after the credential lookup. *)
Theorem poll_sleeps_before_each_query (w w1 : world) (token : json) :
  0 <= delay ->
  get_access_token env w = (Ok token, w1) ->
  exists evs,
    trace (snd (poll w)) = trace w1 ++ evs /\
    paired token voice_id lang delay evs.
Proof.
  intros Hd Hget. rewrite query_recognition_result_unfold, Hget.
  apply poll_loop_paired, Hd.
Qed.

(** X8. When no attempt before the last returns a text, the last attempt
    alone decides: its text is returned, its falling through gives the
    error of line 188, and any exception it raises, the rejection of
    line 179 included, comes out inside the error of line 185. *)
Theorem poll_last_attempt_decides (w w1 : world) (token : json) :
  0 <= delay ->
  1 <= max_retries ->
  get_access_token env w = (Ok token, w1) ->
  let answer_of (j : nat) := query_endpoint env (count is_query (trace w1) + j) in
  (forall j, (j < Z.to_nat max_retries - 1)%nat ->
     is_success (attempt_verdict (answer_of j)) = false) ->
  fst (poll w)
  = last_attempt_result max_retries
      (attempt_verdict (answer_of (Z.to_nat max_retries - 1)%nat)).
Proof.
  intros Hd Hm Hget answer_of Hskip.
  rewrite query_recognition_result_unfold, Hget.
  destruct (Z.to_nat max_retries) as [|m] eqn:Hn; [lia|].
  replace (S m - 1)%nat with m in * by lia.
  destruct (poll_loop_skip env token voice_id lang max_retries delay m 1 0 w1 Hd
              ltac:(lia) Hskip) as (w' & evs & Hrun & Ht & Hq & _).
  replace (S m) with (m + 1)%nat by lia.
  rewrite Hrun, (poll_loop_step _ _ _ _ _ _ _ _ _ Hd).
  replace (count is_query (trace w')) with (count is_query (trace w1) + m)%nat
    by (rewrite Ht, count_app, Hq; reflexivity).
  fold (answer_of m).
  destruct (attempt_verdict (answer_of m)) as [[v|]|e0]; [reflexivity | reflexivity |].
  destruct (Z.eqb_spec (0 + Z.of_nat m) (max_retries - 1)); [reflexivity | lia].
Qed.

(** X21. The call returns only a text that the remote side sent: when it
    returns [v], one of its queries, within the first [max_retries], was
    answered by an object whose [result] field is [v], and that query
    was the last thing the call did. *)
Theorem poll_returns_only_remote_text (w w' : world) (v : json) :
  poll w = (Ok v, w') ->
  exists (token : json) (w1 : world) (k : nat) (fields : list (string * json))
         (evs : list (Z * event)),
    get_access_token env w = (Ok token, w1) /\
    (k < Z.to_nat max_retries)%nat /\
    outcome (query_endpoint env (count is_query (trace w1) + k)) = HttpJson (JObj fields) /\
    Py.assoc "result" fields = Some v /\
    trace w' = trace w1 ++ evs /\
    count is_query evs = S k /\
    exists t, last evs = Some (t, Query token voice_id lang).
Proof.
  rewrite query_recognition_result_unfold.
  destruct (get_access_token env w) as [[token|e] w1]; [|discriminate].
  intros Hrun.
  destruct (poll_loop_return_inv env token voice_id lang max_retries delay _ _ _ _ _ Hrun)
    as (k & fields & evs & H).
  exists token, w1, k, fields, evs. split; [reflexivity | exact H].
Qed.

End PollingMore.

(** * Further properties of the classification of answers *)

Section Classification.

Lemma prefix_app (s rest : string) : String.prefix s (s +:+ rest) = true.
Proof.
  induction s as [|c s IH].
  - destruct rest; reflexivity.
  - change (String c s +:+ rest) with (String c (s +:+ rest)). cbn [String.prefix].
    destruct (ascii_dec c c); [exact IH | contradiction].
Qed.

Lemma prefix_inv (s : string) :
  forall hay, String.prefix s hay = true -> exists rest, hay = s +:+ rest.
Proof.
  induction s as [|c s IH]; intros hay H.
  - exists hay. reflexivity.
  - destruct hay as [|c' hay]; cbn in H; [discriminate|].
    destruct (ascii_dec c c') as [<-|]; [|discriminate].
    destruct (IH hay H) as [rest ->]. exists rest. reflexivity.
Qed.

Lemma contains_unfold (needle : string) (c : ascii) (hay : string) :
  Py.contains needle (String c hay)
  = String.prefix needle (String c hay) || Py.contains needle hay.
Proof. reflexivity. Qed.

Lemma contains_intro (needle before after : string) :
  Py.contains needle (before +:+ needle +:+ after) = true.
Proof.
  induction before as [|c before IH].
  - change (EmptyString +:+ needle +:+ after) with (needle +:+ after).
    destruct (needle +:+ after) eqn:Hh.
    + cbn. destruct needle; [reflexivity | discriminate].
    + rewrite contains_unfold, <- Hh, prefix_app. reflexivity.
  - change (String c before +:+ needle +:+ after)
      with (String c (before +:+ needle +:+ after)).
    rewrite contains_unfold, IH. apply orb_true_r.
Qed.

Lemma contains_inv (needle : string) :
  forall hay, Py.contains needle hay = true ->
              exists before after, hay = before +:+ needle +:+ after.
Proof.
  induction hay as [|c hay IH]; intros H.
  - cbn in H. rewrite orb_false_r in H.
    destruct (prefix_inv needle EmptyString H) as [rest Hrest].
    exists EmptyString, rest. exact Hrest.
  - rewrite contains_unfold in H. apply orb_true_iff in H as [H|H].
    + destruct (prefix_inv needle _ H) as [rest Hrest].
      exists EmptyString, rest. exact Hrest.
    + destruct (IH H) as (before & after & ->).
      exists (String c before), after. reflexivity.
Qed.

Lemma lower_app (s t : string) : Py.lower (s +:+ t) = Py.lower s +:+ Py.lower t.
Proof.
  induction s as [|c s IH]; [reflexivity|].
  change (String c s +:+ t) with (String c (s +:+ t)). cbn [Py.lower].
  rewrite IH. reflexivity.
Qed.

Lemma contains_mentions (pattern msg : string) :
  Py.contains pattern (Py.lower msg) = true <-> mentions pattern msg.
Proof.
  split.
  - apply contains_inv.
  - intros (before & after & ->). apply contains_intro.
Qed.

(** An object answer without [result] whose error code is absent or not
    zero, seen through the message it carries. *)
Lemma classify_response_error (fields : list (string * json)) (msg : string) :
  Py.assoc "result" fields = None ->
  signals_error fields = true ->
  remote_message fields = JStr msg ->
  classify_response (JObj fields)
  = if Py.contains "busy" (Py.lower msg) || Py.contains "wait" (Py.lower msg)
    then Ok Next
    else Raise (RecognitionError (JStr msg)).
Proof.
  intros Hres Herr Hmsg.
  assert (Hm : Py.get (JObj fields) "errmsg" (JStr "Unknown error") = Ok (JStr msg)).
  { unfold remote_message in Hmsg. unfold Py.get.
    destruct (Py.assoc "errmsg" fields); congruence. }
  assert (Hc : exists errcode, Py.get (JObj fields) "errcode" JNull = Ok errcode /\
                               negb (Py.eq_zero errcode) = true).
  { unfold signals_error in Herr. unfold Py.get.
    destruct (Py.assoc "errcode" fields); eexists; (split; [reflexivity|]);
      [exact Herr | reflexivity]. }
  destruct Hc as (errcode & Hc & Hec).
  unfold classify_response.
  replace (Py.has_key "result" (JObj fields)) with (@Ok bool false)
    by (unfold Py.has_key; now rewrite Hres).
  cbn [completion_bind]. rewrite Hc. cbn [completion_bind]. rewrite Hec, Hm.
  reflexivity.
Qed.

(** X9. An object answer without [result], whose error code is absent
    or not zero, is retried exactly when its message (["Unknown error"]
    when it has none) mentions "busy" or "wait" once lowercased;
    otherwise it is the rejection of line 179, carrying the message as
    received.  The pattern may stand anywhere in the message and in any
    letter case. *)
Theorem transient_iff_mentions (fields : list (string * json)) (msg : string) :
  Py.assoc "result" fields = None ->
  signals_error fields = true ->
  remote_message fields = JStr msg ->
  (mentions "busy" msg \/ mentions "wait" msg ->
   classify_response (JObj fields) = Ok Next)
  /\
  (~ (mentions "busy" msg \/ mentions "wait" msg) ->
   classify_response (JObj fields) = Raise (RecognitionError (JStr msg)))
  /\
  (forall before word after,
     msg = before +:+ word +:+ after ->
     Py.lower word = "busy" \/ Py.lower word = "wait" ->
     classify_response (JObj fields) = Ok Next).
Proof.
  intros Hres Herr Hmsg.
  rewrite (classify_response_error fields msg Hres Herr Hmsg).
  assert (Hyes : mentions "busy" msg \/ mentions "wait" msg ->
                 Py.contains "busy" (Py.lower msg) || Py.contains "wait" (Py.lower msg) = true).
  { intros [H|H]; apply contains_mentions in H; rewrite H;
      [reflexivity | apply orb_true_r]. }
  split; [|split].
  - intros H. now rewrite (Hyes H).
  - intros Hno.
    destruct (Py.contains "busy" (Py.lower msg) || Py.contains "wait" (Py.lower msg)) eqn:Hc;
      [|reflexivity].
    exfalso. apply Hno. apply orb_true_iff in Hc as [Hc|Hc];
      apply contains_mentions in Hc; [now left | now right].
  - intros before word after -> Hword.
    rewrite Hyes; [reflexivity|].
    destruct Hword as [Hw|Hw]; [left|right];
      exists (Py.lower before), (Py.lower after);
      now rewrite !lower_app, Hw.
Qed.

(** X10. An answer that decodes to something other than an object (a
    list, a string, a number, a boolean, null) is never taken for a
    text, for "not ready" or for a rejection: classifying it raises a
    type or attribute error, which the loop treats like a transport
    failure. *)
Theorem non_object_answer_is_a_fault (data : json) :
  (forall fields, data <> JObj fields) ->
  (classify_response data = Raise TypeError \/
   classify_response data = Raise AttributeError) /\
  inconclusive (classify_response data) = true.
Proof.
  intros Hno. unfold classify_response.
  destruct data as [| b | n | s | items | fields]; cbn;
    try (split; [left; reflexivity | reflexivity]).
  - destruct (Py.contains "result" s); cbn;
      (split; [(left; reflexivity) || (right; reflexivity) | reflexivity]).
  - destruct (existsb _ items); cbn;
      (split; [(left; reflexivity) || (right; reflexivity) | reflexivity]).
  - exfalso. now apply (Hno fields).
Qed.

End Classification.

(** * Further properties of the submission *)

Section SubmitMore.

Variable env : environment.

(** What a returning call has done. *)
Lemma upload_ok_inv (audio_file_path lang : string) (w w' : world) (voice_id : string) :
  upload_voice_for_recognition env audio_file_path lang w = (Ok voice_id, w') ->
  exists token w1,
    get_access_token env w = (Ok token, w1) /\
    audio_file_path ∈ files w1 /\
    accepted (upload_endpoint env (count is_upload (trace w1))) = true /\
    voice_id = uuid4 env (uuids w1) /\
    w' = after_upload env token audio_file_path lang w1.
Proof.
  intros Hrun.
  destruct (get_access_token env w) as [[token|e] w1] eqn:Hget;
    [|rewrite (upload_no_credential env _ _ w w1 e Hget) in Hrun; discriminate].
  destruct (decide (audio_file_path ∈ files w1)) as [Hin|Hout];
    [|rewrite (upload_missing_file env _ _ w w1 token Hget Hout) in Hrun; discriminate].
  rewrite (upload_sent env _ _ w w1 token Hget Hin) in Hrun.
  exists token, w1. split; [reflexivity|]. split; [exact Hin|].
  unfold accepted.
  destruct (outcome (upload_endpoint env (count is_upload (trace w1)))) as [d|result];
    [discriminate|].
  destruct result as [| | | | |fields]; try discriminate.
  cbn in Hrun. destruct (Py.assoc "errcode" fields) as [errcode|]; cbn in Hrun.
  - destruct (Py.eq_zero errcode).
    + injection Hrun as <- <-. repeat split.
    + destruct (Py.assoc "errmsg" fields); discriminate.
  - destruct (Py.assoc "errmsg" fields); discriminate.
Qed.

Lemma upload_raise_inv (audio_file_path lang : string) (w w' : world) (e : exn) :
  upload_voice_for_recognition env audio_file_path lang w = (Raise e, w') ->
  (exists cause, e = TokenError cause) \/ (exists cause, e = UploadError cause).
Proof.
  intros Hrun.
  destruct (get_access_token env w) as [[token|e0] w1] eqn:Hget.
  - right. destruct (decide (audio_file_path ∈ files w1)) as [Hin|Hout].
    + rewrite (upload_sent env _ _ w w1 token Hget Hin) in Hrun.
      injection Hrun as He _.
      destruct (outcome _) as [d|result]; [injection He as <-; eauto|].
      destruct (Py.get result "errcode" JNull) as [errcode|e1];
        [|injection He as <-; eauto].
      destruct (Py.eq_zero errcode); [discriminate|].
      destruct (Py.get result "errmsg" (JStr "Unknown error"));
        injection He as <-; eauto.
    + rewrite (upload_missing_file env _ _ w w1 token Hget Hout) in Hrun.
      injection Hrun as <- _. eauto.
  - left. rewrite (upload_no_credential env _ _ w w1 e0 Hget) in Hrun.
    injection Hrun as <- _.
    apply (get_access_token_raise_inv env w w1 e0 Hget).
Qed.

(** X11. The submission returns an identifier only when the remote side
    answered its one request with a zero error code.  The identifier is
    the one the call drew from the generator and sent with the request;
    the file was there and the credential lookup had returned. *)
Theorem upload_returns_only_if_accepted (audio_file_path lang : string) (w w' : world)
        (voice_id : string) :
  upload_voice_for_recognition env audio_file_path lang w = (Ok voice_id, w') ->
  exists token w1,
    get_access_token env w = (Ok token, w1) /\
    accepted (upload_endpoint env (count is_upload (trace w1))) = true /\
    voice_id = uuid4 env (uuids w) /\
    uuids w' = S (uuids w) /\
    audio_file_path ∈ files w /\
    trace w' = trace w1 ++ [(now w1, Upload token voice_id lang audio_file_path)].
Proof.
  intros Hrun.
  destruct (upload_ok_inv _ _ _ _ _ Hrun) as (token & w1 & Hget & Hin & Hacc & -> & ->).
  pose proof (get_access_token_frame env w) as [(_ & _ & Hf & Hu) _].
  rewrite Hget in Hf, Hu. cbn in Hf, Hu.
  exists token, w1. rewrite <- Hu, <- Hf. repeat split; assumption.
Qed.

(** X12. An exception that leaves the submission is either the credential
    error, raised as it is before any identifier is drawn or request
    sent, or the "Voice upload error" of line 134, raised after exactly
    one identifier was drawn. *)
Theorem upload_errors (audio_file_path lang : string) (w w' : world) (e : exn) :
  upload_voice_for_recognition env audio_file_path lang w = (Raise e, w') ->
  (exists cause, e = TokenError cause /\
                 uuids w' = uuids w /\
                 count is_upload (trace w') = count is_upload (trace w))
  \/
  (exists cause, e = UploadError cause /\ uuids w' = S (uuids w)).
Proof.
  intros Hrun.
  pose proof (get_access_token_frame env w) as [(_ & _ & _ & Hu) Ht].
  cbn zeta in Hu, Ht.
  destruct (get_access_token env w) as [[token|e0] w1] eqn:Hget; cbn [snd] in Hu, Ht.
  - right. destruct (decide (audio_file_path ∈ files w1)) as [Hin|Hout].
    + rewrite (upload_sent env _ _ w w1 token Hget Hin) in Hrun.
      injection Hrun as He <-. cbn [uuids after_upload set_now record set_uuids].
      rewrite Hu. 
      destruct (outcome _) as [d|result]; [injection He as <-; eauto|].
      destruct (Py.get result "errcode" JNull) as [errcode|e1];
        [|injection He as <-; eauto].
      destruct (Py.eq_zero errcode); [discriminate|].
      destruct (Py.get result "errmsg" (JStr "Unknown error"));
        injection He as <-; eauto.
    + rewrite (upload_missing_file env _ _ w w1 token Hget Hout) in Hrun.
      injection Hrun as <- <-. cbn. rewrite Hu. eauto.
  - left. rewrite (upload_no_credential env _ _ w w1 e0 Hget) in Hrun.
    injection Hrun as <- <-.
    destruct (get_access_token_raise_inv env w w1 e0 Hget) as (_ & [cause ->] & _).
    exists cause. split; [reflexivity|]. split; [exact Hu|].
    destruct Ht as [->| ->]; [reflexivity|].
    rewrite count_app. unfold count. cbn. lia.
Qed.

(** X13. When the audio file is not there once the credential is
    obtained, the submission raises "Voice upload error" around the
    missing file without sending any submit request; the identifier it
    had drawn is spent all the same. *)
Theorem upload_unreadable_file (audio_file_path lang : string) (w w1 : world)
        (token : json) :
  get_access_token env w = (Ok token, w1) ->
  audio_file_path ∉ files w1 ->
  exists w',
    upload_voice_for_recognition env audio_file_path lang w
    = (Raise (UploadError (FileNotFoundError audio_file_path)), w') /\
    trace w' = trace w1 /\
    uuids w' = S (uuids w) /\
    same_credential w1 w'.
Proof.
  intros Hget Hout.
  pose proof (get_access_token_frame env w) as [(_ & _ & _ & Hu) _].
  rewrite Hget in Hu. cbn in Hu.
  rewrite (upload_missing_file env _ _ w w1 token Hget Hout).
  eexists. split; [reflexivity|]. cbn. rewrite Hu. repeat split.
Qed.

(** X14. Two submissions in a row that both return have drawn
    consecutive identifiers of the generator; with a generator that
    never repeats, the two identifiers differ. *)
Theorem uploads_draw_distinct_identifiers
        (path1 lang1 path2 lang2 : string) (w w1 w2 : world) (id1 id2 : string) :
  upload_voice_for_recognition env path1 lang1 w = (Ok id1, w1) ->
  upload_voice_for_recognition env path2 lang2 w1 = (Ok id2, w2) ->
  id1 = uuid4 env (uuids w) /\
  id2 = uuid4 env (S (uuids w)) /\
  ((forall m n, uuid4 env m = uuid4 env n -> m = n) -> id1 <> id2).
Proof.
  intros H1 H2.
  destruct (upload_ok_inv _ _ _ _ _ H1) as (t1 & v1 & Hg1 & _ & _ & -> & ->).
  destruct (upload_ok_inv _ _ _ _ _ H2) as (t2 & v2 & Hg2 & _ & _ & -> & _).
  pose proof (get_access_token_frame env w) as [(_ & _ & _ & Hu1) _].
  rewrite Hg1 in Hu1. cbn in Hu1.
  pose proof (get_access_token_frame env (after_upload env t1 path1 lang1 v1))
    as [(_ & _ & _ & Hu2) _].
  rewrite Hg2 in Hu2. cbn in Hu2.
  rewrite Hu2, Hu1. split; [reflexivity|]. split; [reflexivity|].
  intros Hinj Heq. apply Hinj in Heq. lia.
Qed.

End SubmitMore.

(** * Further properties of the conversion and of the pipeline *)

Section PipelineMore.

Variable env : environment.

Lemma convert_audio_to_mp3_missing (input_path : string) (output_path : option string)
      (w : world) :
  input_path ∉ files w ->
  convert_audio_to_mp3 env input_path output_path w
  = (Raise (ConversionError (FileNotFoundError input_path)), w).
Proof.
  intros Hout. unfold convert_audio_to_mp3, file_exists. run.
  rewrite bool_decide_eq_false_2 by exact Hout. reflexivity.
Qed.

Lemma convert_audio_to_mp3_present (input_path : string) (output_path : option string)
      (w : world) :
  input_path ∈ files w ->
  let out := target_path env input_path output_path in
  let written := set_files ({[out]} ∪ files w) w in
  convert_audio_to_mp3 env input_path output_path w =
    match encoder env input_path out with
    | DecodeFail detail => (Raise (ConversionError (CodecError detail)), w)
    | ExportFail detail leaves_file =>
        (Raise (ConversionError (CodecError detail)), if leaves_file then written else w)
    | ExportOk => (Ok out, written)
    end.
Proof.
  intros Hin. unfold convert_audio_to_mp3, file_exists, target_path. run.
  rewrite bool_decide_eq_true_2 by exact Hin. cbn.
  destruct (encoder env input_path _) as [d|d [|]|]; reflexivity.
Qed.

(** X15. When the input file is not there, the conversion raises "Audio
    conversion failed" around the missing file and changes nothing: the
    encoder is not run and no file is written.  The whole pipeline then
    raises "Speech recognition failed" around that error without
    sending anything. *)
Theorem convert_missing_input (input_path lang : string) (output_path : option string)
        (w : world) :
  input_path ∉ files w ->
  convert_audio_to_mp3 env input_path output_path w
  = (Raise (ConversionError (FileNotFoundError input_path)), w) /\
  recognize_speech env input_path lang w
  = (Raise (SpeechError (ConversionError (FileNotFoundError input_path))), w).
Proof.
  intros Hout. split; [apply convert_audio_to_mp3_missing, Hout|].
  unfold recognize_speech. now rewrite (convert_audio_to_mp3_missing _ None w Hout).
Qed.

Lemma count_cons (p : Z * event -> bool) (e : Z * event) (evs : list (Z * event)) :
  count p (e :: evs) = ((if p e then 1 else 0) + count p evs)%nat.
Proof. unfold count. cbn. destruct (p e); reflexivity. Qed.

Lemma within_budget_app (a b c d a' b' c' d' : nat) (evs evs' : list (Z * event)) :
  within_budget a b c d evs ->
  within_budget a' b' c' d' evs' ->
  within_budget (a + a') (b + b') (c + c') (d + d') (evs ++ evs').
Proof. unfold within_budget. rewrite !count_app. lia. Qed.

Lemma within_budget_nil : within_budget 0 0 0 0 [].
Proof. repeat split; unfold count; cbn; lia. Qed.

Lemma within_budget_weaken (a b c d a' b' c' d' : nat) (evs : list (Z * event)) :
  within_budget a b c d evs ->
  (a <= a')%nat -> (b <= b')%nat -> (c <= c')%nat -> (d <= d')%nat ->
  within_budget a' b' c' d' evs.
Proof. unfold within_budget. lia. Qed.

(** The polling actions seen as actions of the pipeline. *)
Lemma polled_pipeline (token : json) (voice_id lang path : string)
      (evs : list (Z * event)) :
  Forall (poll_event token voice_id lang 1) evs ->
  Forall (pipeline_event voice_id lang path) evs /\
  count is_fetch evs = 0%nat /\ count is_upload evs = 0%nat.
Proof.
  induction 1 as [|[t ev] evs He _ (IH & Hf & Hu)].
  - repeat split. constructor.
  - rewrite !count_cons, Hf, Hu.
    destruct He as [He|He]; cbn in He; subst ev;
      (split; [constructor; [cbn; repeat split | exact IH] | split; reflexivity]).
Qed.

Lemma get_access_token_stage (voice_id lang path : string) (w : world) :
  exists evs,
    trace (snd (get_access_token env w)) = trace w ++ evs /\
    Forall (pipeline_event voice_id lang path) evs /\
    within_budget 1 0 0 0 evs.
Proof.
  destruct (get_access_token_frame env w) as [_ [Ht|Ht]]; rewrite Ht.
  - exists []. rewrite app_nil_r. split; [reflexivity|]. split; [constructor|].
    eapply within_budget_weaken; [apply within_budget_nil | lia..].
  - eexists. split; [reflexivity|]. split; [repeat constructor|].
    repeat split; unfold count; cbn; lia.
Qed.

Lemma poll_stage (voice_id lang path : string) (w : world) :
  exists evs,
    trace (snd (query_recognition_result env voice_id lang 5 1 w)) = trace w ++ evs /\
    Forall (pipeline_event voice_id lang path) evs /\
    within_budget 1 0 5 5 evs.
Proof.
  rewrite query_recognition_result_unfold.
  destruct (get_access_token_stage voice_id lang path w) as (pre & Hpre & Hall & Hb).
  destruct (get_access_token env w) as [[token|e] w1]; cbn [snd] in Hpre |- *.
  - destruct (poll_loop_frame env token voice_id lang 5 1 (Z.to_nat 5) 0 w1)
      as ((evs & Ht & Hev & Hq & Hs) & _).
    destruct (polled_pipeline token voice_id lang path evs Hev) as (Hpipe & Hf & Hu).
    exists (pre ++ evs). rewrite Ht, Hpre, <- app_assoc. split; [reflexivity|].
    split; [apply Forall_app; split; assumption|].
    apply (within_budget_app 1 0 0 0 0 0 5 5); [exact Hb|].
    change (Z.to_nat 5) with 5%nat in Hq, Hs. unfold within_budget. lia.
  - exists pre. split; [exact Hpre|]. split; [exact Hall|].
    eapply within_budget_weaken; [exact Hb | lia..].
Qed.

Lemma upload_stage (audio_file_path lang : string) (w : world) :
  exists evs,
    trace (snd (upload_voice_for_recognition env audio_file_path lang w)) = trace w ++ evs /\
    Forall (pipeline_event (uuid4 env (uuids w)) lang audio_file_path) evs /\
    within_budget 1 1 0 0 evs.
Proof.
  destruct (get_access_token_stage (uuid4 env (uuids w)) lang audio_file_path w)
    as (pre & Hpre & Hall & Hb).
  pose proof (get_access_token_frame env w) as [(_ & _ & _ & Hu) _]. cbn zeta in Hu.
  assert (Hquiet : exists evs,
             trace (snd (get_access_token env w)) = trace w ++ evs /\
             Forall (pipeline_event (uuid4 env (uuids w)) lang audio_file_path) evs /\
             within_budget 1 1 0 0 evs).
  { exists pre. split; [exact Hpre|]. split; [exact Hall|].
    eapply within_budget_weaken; [exact Hb | lia..]. }
  destruct (get_access_token env w) as [[token|e] w1] eqn:Hget; cbn [snd] in *.
  - destruct (decide (audio_file_path ∈ files w1)) as [Hin|Hout].
    + rewrite (upload_sent env _ _ w w1 token Hget Hin). cbn [snd].
      exists (pre ++ [(now w1, Upload token (uuid4 env (uuids w)) lang audio_file_path)]).
      unfold after_upload, set_now, record. cbn [trace set_uuids].
      rewrite Hpre, Hu, <- app_assoc. split; [reflexivity|].
      split; [apply Forall_app; split; [exact Hall | repeat constructor]|].
      apply (within_budget_app 1 0 0 0 0 1 0 0); [exact Hb|].
      repeat split; unfold count; cbn; lia.
    + rewrite (upload_missing_file env _ _ w w1 token Hget Hout). exact Hquiet.
  - rewrite (upload_no_credential env _ _ w w1 e Hget). exact Hquiet.
Qed.

Lemma upload_then_query_stage (converted_audio lang : string) (w : world) :
  exists evs,
    trace (snd (upload_then_query env converted_audio lang w)) = trace w ++ evs /\
    Forall (pipeline_event (uuid4 env (uuids w)) lang converted_audio) evs /\
    within_budget 2 1 5 5 evs.
Proof.
  unfold upload_then_query, bind.
  destruct (upload_stage converted_audio lang w) as (evs1 & Ht1 & Hall1 & Hb1).
  destruct (upload_voice_for_recognition env converted_audio lang w)
    as [[voice_id|e] w1] eqn:Hup; cbn [snd] in Ht1 |- *.
  - destruct (upload_ok_inv env _ _ _ _ _ Hup) as (token & w0 & Hget & _ & _ & -> & _).
    pose proof (get_access_token_frame env w) as [(_ & _ & _ & Hu) _].
    rewrite Hget in Hu. cbn in Hu. rewrite Hu.
    destruct (poll_stage (uuid4 env (uuids w)) lang converted_audio w1)
      as (evs2 & Ht2 & Hall2 & Hb2).
    exists (evs1 ++ evs2). rewrite Ht2, Ht1, <- app_assoc. split; [reflexivity|].
    split; [apply Forall_app; split; assumption|].
    apply (within_budget_app 1 1 0 0 1 0 5 5); assumption.
  - exists evs1. split; [exact Ht1|]. split; [exact Hall1|].
    eapply within_budget_weaken; [exact Hb1 | lia..].
Qed.

Lemma remove_if_exists_trace (path : string) (w : world) :
  trace (remove_if_exists path w) = trace w.
Proof. unfold remove_if_exists. destruct (bool_decide _); reflexivity. Qed.

(** The trace of a run of the pipeline is the trace of its second and
    third steps, taken after the conversion. *)
Lemma recognize_speech_trace (audio_file_path lang : string) (w : world) :
  (exists e, convert_audio_to_mp3 env audio_file_path None w = (Raise e, w) \/
             exists w1, convert_audio_to_mp3 env audio_file_path None w = (Raise e, w1) /\
                        trace (snd (recognize_speech env audio_file_path lang w)) = trace w)
  \/
  (exists w1,
     convert_audio_to_mp3 env audio_file_path None w
     = (Ok (target_path env audio_file_path None), w1) /\
     trace w1 = trace w /\ uuids w1 = uuids w /\
     trace (snd (recognize_speech env audio_file_path lang w))
     = trace (snd (upload_then_query env (target_path env audio_file_path None) lang w1))).
Proof.
  unfold recognize_speech.
  destruct (decide (audio_file_path ∈ files w)) as [Hin|Hout].
  - rewrite (convert_audio_to_mp3_present _ None w Hin). cbn zeta.
    destruct (encoder env audio_file_path _) as [d|d [|]|].
    + left. eexists. left. reflexivity.
    + left. eexists. right. eexists. split; reflexivity.
    + left. eexists. left. reflexivity.
    + right. eexists. split; [reflexivity|]. split; [reflexivity|]. split; [reflexivity|].
      destruct (upload_then_query env _ lang _) as [[text|e] w2]; cbn [snd];
        apply remove_if_exists_trace.
  - left. eexists. left. apply convert_audio_to_mp3_missing, Hout.
Qed.

(** X17. Whatever the remote side and the encoder do, one run of
    [recognize_speech] sends at most two token requests, one submission
    and five queries, and sleeps at most five times. *)
Theorem recognize_request_budget (audio_file_path lang : string) (w : world) :
  exists evs,
    trace (snd (recognize_speech env audio_file_path lang w)) = trace w ++ evs /\
    within_budget 2 1 5 5 evs.
Proof.
  assert (Hnone : trace (snd (recognize_speech env audio_file_path lang w)) = trace w ->
                  exists evs,
                    trace (snd (recognize_speech env audio_file_path lang w)) = trace w ++ evs /\
                    within_budget 2 1 5 5 evs).
  { intros ->. exists []. rewrite app_nil_r. split; [reflexivity|].
    eapply within_budget_weaken; [apply within_budget_nil | lia..]. }
  destruct (recognize_speech_trace audio_file_path lang w)
    as [[e [Hc|[w1 [Hc Ht]]]]|(w1 & Hc & Ht1 & _ & Ht)].
  - apply Hnone. unfold recognize_speech. now rewrite Hc.
  - apply Hnone, Ht.
  - destruct (upload_then_query_stage (target_path env audio_file_path None) lang w1)
      as (evs & Hev & _ & Hb).
    exists evs. rewrite Ht, Hev, Ht1. split; [reflexivity | exact Hb].
Qed.

(** X18. Everything one run of [recognize_speech] sends belongs to one
    request: the submission carries the path the conversion wrote, the
    language asked for and the identifier the run drew from the
    generator, every query carries that same identifier and language,
    and every sleep lasts one second. *)
Theorem recognize_uses_one_identifier (audio_file_path lang : string) (w : world) :
  exists evs,
    trace (snd (recognize_speech env audio_file_path lang w)) = trace w ++ evs /\
    Forall (pipeline_event (uuid4 env (uuids w)) lang (target_path env audio_file_path None))
           evs.
Proof.
  assert (Hnone : trace (snd (recognize_speech env audio_file_path lang w)) = trace w ->
                  exists evs,
                    trace (snd (recognize_speech env audio_file_path lang w)) = trace w ++ evs /\
                    Forall (pipeline_event (uuid4 env (uuids w)) lang
                                           (target_path env audio_file_path None)) evs).
  { intros ->. exists []. rewrite app_nil_r. split; [reflexivity | constructor]. }
  destruct (recognize_speech_trace audio_file_path lang w)
    as [[e [Hc|[w1 [Hc Ht]]]]|(w1 & Hc & Ht1 & Hu & Ht)].
  - apply Hnone. unfold recognize_speech. now rewrite Hc.
  - apply Hnone, Ht.
  - destruct (upload_then_query_stage (target_path env audio_file_path None) lang w1)
      as (evs & Hev & Hall & _).
    exists evs. rewrite Ht, Hev, Ht1, <- Hu. split; [reflexivity | exact Hall].
Qed.

(** X19. After a conversion that returned, the run leaves the files as it
    found them, apart from the converted path: whatever was at that path
    before the run is gone afterwards.  In particular the files are
    exactly those from before the run when nothing was at the converted
    path, and the recording itself stays when it is not the converted
    path. *)
Theorem recognize_restores_files (audio_file_path lang : string) (w w1 : world)
        (converted : string) :
  convert_audio_to_mp3 env audio_file_path None w = (Ok converted, w1) ->
  let w' := snd (recognize_speech env audio_file_path lang w) in
  files w' = files w ∖ {[converted]} /\
  (converted ∉ files w -> files w' = files w) /\
  (audio_file_path <> converted -> audio_file_path ∈ files w').
Proof.
  intros Hconv w'.
  destruct (convert_audio_to_mp3_created env _ _ _ _ _ Hconv) as [_ Hw1].
  assert (Hin : audio_file_path ∈ files w).
  { destruct (decide (audio_file_path ∈ files w)) as [Hin|Hout]; [exact Hin|].
    rewrite (convert_audio_to_mp3_missing _ None w Hout) in Hconv. discriminate. }
  assert (Hfiles : files w' = files w ∖ {[converted]}).
  { subst w'. unfold recognize_speech. rewrite Hconv.
    pose proof (upload_then_query_files env converted lang w1) as Hf.
    destruct (upload_then_query env converted lang w1) as [[text|e] w2];
      cbn [snd] in Hf |- *; rewrite remove_if_exists_files, Hf, Hw1;
      apply set_eq; intros x; rewrite !elem_of_difference, elem_of_union;
      tauto. }
  split; [exact Hfiles|]. split.
  - intros Hfree. rewrite Hfiles. apply difference_disjoint_L, disjoint_singleton_r, Hfree.
  - intros Hne. rewrite Hfiles. apply elem_of_difference. split; [exact Hin|].
    intros Heq%elem_of_singleton. contradiction.
Qed.

(** X20. An exception that leaves [recognize_speech] is always "Speech
    recognition failed" around the error of the stage that failed: the
    conversion error, the credential error, the upload error, the error
    of line 185 for five attempts or the error of line 188. *)
Theorem recognize_errors (audio_file_path lang : string) (w : world) (e : exn) :
  fst (recognize_speech env audio_file_path lang w) = Raise e ->
  exists cause, e = SpeechError cause /\ stage_error cause = true.
Proof.
  unfold recognize_speech.
  destruct (convert_audio_to_mp3 env audio_file_path None w) as [[converted|e0] w1] eqn:Hconv.
  - unfold upload_then_query, bind.
    destruct (upload_voice_for_recognition env converted lang w1)
      as [[voice_id|e1] w2] eqn:Hup.
    + destruct (query_recognition_result env voice_id lang 5 1 w2) as [[text|e2] w3] eqn:Hq;
        cbn; [discriminate|]. intros [= <-]. eexists. split; [reflexivity|].
      destruct (query_recognition_result_raise_inv env voice_id lang 5 1 w2 e2)
        as [[c ->]|[->|[c [-> _]]]]; [now rewrite Hq | reflexivity..].
    + cbn. intros [= <-]. eexists. split; [reflexivity|].
      destruct (upload_raise_inv env _ _ _ _ _ Hup) as [[c ->]|[c ->]]; reflexivity.
  - cbn. intros [= <-]. eexists. split; [reflexivity|].
    destruct (decide (audio_file_path ∈ files w)) as [Hin|Hout].
    + rewrite (convert_audio_to_mp3_present _ None w Hin) in Hconv. cbn zeta in Hconv.
      destruct (encoder env audio_file_path _) as [d|d [|]|];
        try discriminate; injection Hconv as <- _; reflexivity.
    + rewrite (convert_audio_to_mp3_missing _ None w Hout) in Hconv.
      injection Hconv as <- _. reflexivity.
Qed.

End PipelineMore.

(** * The further properties on concrete runs *)

Section MoreRuns.

Import Scenario.

Lemma get_access_token_error_wrapped_witness :
  (exists cause, TokenError (TokenRejected (JStr "invalid appid")) = TokenError cause) /\
  token_expire_time (snd (get_access_token denied (holding 1200)))
  = token_expire_time (holding 1200) /\
  trace (snd (get_access_token denied (holding 1200)))
  = trace (holding 1200)
    ++ [(now (holding 1200), TokenFetch (appid (holding 1200)) (appsecret (holding 1200)))] /\
  same_store (holding 1200) (snd (get_access_token denied (holding 1200))).
Proof.
  apply (get_access_token_error_wrapped denied (holding 1200)
           (snd (get_access_token denied (holding 1200)))
           (TokenError (TokenRejected (JStr "invalid appid")))).
  vm_compute. reflexivity.
Defined.

Lemma refreshed_credential_reuse_witness :
  get_access_token (pipeline []) (set_now 4000 (snd (get_access_token (pipeline []) fresh)))
  = (Ok (JStr "T2"), set_now 4000 (snd (get_access_token (pipeline []) fresh))).
Proof.
  assert (Hinvalid : credential_valid fresh = false) by (vm_compute; reflexivity).
  assert (Hanswer : outcome (token_endpoint (pipeline []) (count is_fetch (trace fresh)))
                    = HttpJson (JObj [("access_token", JStr "T2"); ("expires_in", JNum 3600)]))
    by (vm_compute; reflexivity).
  assert (Hsmall : Z.abs 3600 < 2 ^ 53) by (vm_compute; reflexivity).
  assert (Hsum : Z.abs (now fresh
                        + elapsed (token_endpoint (pipeline []) (count is_fetch (trace fresh)))
                        + 3600) < 2 ^ 53)
    by (vm_compute; reflexivity).
  assert (Hsame : same_credential (snd (get_access_token (pipeline []) fresh))
                    (set_now 4000 (snd (get_access_token (pipeline []) fresh))))
    by (split; reflexivity).
  apply (proj1 (refreshed_credential_reuse (pipeline []) fresh
                  (set_now 4000 (snd (get_access_token (pipeline []) fresh)))
                  [("access_token", JStr "T2"); ("expires_in", JNum 3600)]
                  (JStr "T2") 3600 Hinvalid Hanswer eq_refl (or_introl eq_refl)
                  Hsmall Hsum Hsame)).
  - reflexivity.
  - vm_compute. reflexivity.
Defined.

Lemma poll_errors_witness :
  ((exists cause, MaxRetriesExceeded = TokenError cause) \/
   MaxRetriesExceeded = MaxRetriesExceeded \/
   (exists cause, MaxRetriesExceeded = QueryFailed 3 cause /\ 1 <= 3)) /\
  is_permanent MaxRetriesExceeded = false.
Proof.
  apply (poll_errors (polling [not_ready; not_ready; not_ready]) "abc-123" "zh_CN" 3 1
           (holding 100000) MaxRetriesExceeded).
  vm_compute. reflexivity.
Defined.

Lemma poll_gives_up_after_all_attempts_witness :
  exists evs,
    trace (snd (query_recognition_result (polling [not_ready; not_ready; not_ready])
                  "abc-123" "zh_CN" 3 1 (holding 100000)))
    = trace (holding 100000) ++ evs /\
    count is_query evs = Z.to_nat 3 /\
    count is_sleep evs = Z.to_nat 3.
Proof.
  apply (poll_gives_up_after_all_attempts (polling [not_ready; not_ready; not_ready])
           "abc-123" "zh_CN" 3 1 (holding 100000) (holding 100000) (JStr "T")
           MaxRetriesExceeded).
  - lia.
  - vm_compute. reflexivity.
  - vm_compute. reflexivity.
Defined.

Lemma poll_refused_sleep_witness :
  query_recognition_result (polling [recognised]) "abc-123" "zh_CN" 2 (-1) (holding 100000)
  = (Raise (if 1 <=? 2 then QueryFailed 2 ValueError else MaxRetriesExceeded),
     holding 100000).
Proof.
  apply (poll_refused_sleep (polling [recognised]) "abc-123" "zh_CN" 2 (-1)
           (holding 100000) (holding 100000) (JStr "T")).
  - lia.
  - vm_compute. reflexivity.
Defined.

Lemma poll_sleeps_before_each_query_witness :
  exists evs,
    trace (snd (query_recognition_result (polling [not_ready; recognised])
                  "abc-123" "zh_CN" 5 1 (holding 100000)))
    = trace (holding 100000) ++ evs /\
    paired (JStr "T") "abc-123" "zh_CN" 1 evs.
Proof.
  apply (poll_sleeps_before_each_query (polling [not_ready; recognised])
           "abc-123" "zh_CN" 5 1 (holding 100000) (holding 100000) (JStr "T")).
  - lia.
  - vm_compute. reflexivity.
Defined.

Lemma poll_last_attempt_decides_witness :
  fst (query_recognition_result (polling [busy; invalid_voice])
         "abc-123" "zh_CN" 2 1 (holding 100000))
  = last_attempt_result 2
      (attempt_verdict
         (query_endpoint (polling [busy; invalid_voice])
            (count is_query (trace (holding 100000)) + (Z.to_nat 2 - 1)))).
Proof.
  apply (poll_last_attempt_decides (polling [busy; invalid_voice])
           "abc-123" "zh_CN" 2 1 (holding 100000) (holding 100000) (JStr "T")).
  - lia.
  - lia.
  - vm_compute. reflexivity.
  - intros j Hj. destruct j as [|j]; [vm_compute; reflexivity | vm_compute in Hj; lia].
Defined.

Lemma transient_iff_mentions_witness :
  classify_response (JObj shouting) = Ok Next.
Proof.
  apply (proj2 (proj2 (transient_iff_mentions shouting "Server BUSY now"
                         eq_refl eq_refl eq_refl))
           "Server " "BUSY" " now").
  - reflexivity.
  - left. reflexivity.
Defined.

Lemma non_object_answer_is_a_fault_witness :
  (classify_response (JArr [JStr "result"]) = Raise TypeError \/
   classify_response (JArr [JStr "result"]) = Raise AttributeError) /\
  inconclusive (classify_response (JArr [JStr "result"])) = true.
Proof.
  apply (non_object_answer_is_a_fault (JArr [JStr "result"])).
  intros fields. discriminate.
Defined.

Lemma upload_returns_only_if_accepted_witness :
  exists token w1,
    get_access_token (pipeline []) fresh = (Ok token, w1) /\
    accepted (upload_endpoint (pipeline []) (count is_upload (trace w1))) = true /\
    "abc-123" = uuid4 (pipeline []) (uuids fresh) /\
    uuids (snd (upload_voice_for_recognition (pipeline []) "audio.wav" "zh_CN" fresh))
    = S (uuids fresh) /\
    "audio.wav" ∈ files fresh /\
    trace (snd (upload_voice_for_recognition (pipeline []) "audio.wav" "zh_CN" fresh))
    = trace w1 ++ [(now w1, Upload token "abc-123" "zh_CN" "audio.wav")].
Proof.
  apply (upload_returns_only_if_accepted (pipeline []) "audio.wav" "zh_CN" fresh
           (snd (upload_voice_for_recognition (pipeline []) "audio.wav" "zh_CN" fresh))
           "abc-123").
  vm_compute. reflexivity.
Defined.

Lemma upload_errors_witness :
  (exists cause,
     UploadError (UploadRejected (JStr "invalid media")) = TokenError cause /\
     uuids (snd (upload_voice_for_recognition upload_refused "audio.wav" "zh_CN" fresh))
     = uuids fresh /\
     count is_upload
       (trace (snd (upload_voice_for_recognition upload_refused "audio.wav" "zh_CN" fresh)))
     = count is_upload (trace fresh))
  \/
  (exists cause,
     UploadError (UploadRejected (JStr "invalid media")) = UploadError cause /\
     uuids (snd (upload_voice_for_recognition upload_refused "audio.wav" "zh_CN" fresh))
     = S (uuids fresh)).
Proof.
  apply (upload_errors upload_refused "audio.wav" "zh_CN" fresh
           (snd (upload_voice_for_recognition upload_refused "audio.wav" "zh_CN" fresh))
           (UploadError (UploadRejected (JStr "invalid media")))).
  vm_compute. reflexivity.
Defined.

Lemma upload_unreadable_file_witness :
  exists w',
    upload_voice_for_recognition (pipeline []) "missing.mp3" "zh_CN" fresh
    = (Raise (UploadError (FileNotFoundError "missing.mp3")), w') /\
    trace w' = trace (snd (get_access_token (pipeline []) fresh)) /\
    uuids w' = S (uuids fresh) /\
    same_credential (snd (get_access_token (pipeline []) fresh)) w'.
Proof.
  apply (upload_unreadable_file (pipeline []) "missing.mp3" "zh_CN" fresh
           (snd (get_access_token (pipeline []) fresh)) (JStr "T2")).
  - vm_compute. reflexivity.
  - apply (bool_decide_eq_false_1 _). vm_compute. reflexivity.
Defined.

Lemma uploads_draw_distinct_identifiers_witness :
  "abc-123" = uuid4 two_uploads (uuids fresh) /\
  "abc-456" = uuid4 two_uploads (S (uuids fresh)) /\
  ((forall m n, uuid4 two_uploads m = uuid4 two_uploads n -> m = n) ->
   "abc-123" <> "abc-456").
Proof.
  apply (uploads_draw_distinct_identifiers two_uploads
           "audio.wav" "zh_CN" "audio.wav" "en_US" fresh
           (snd (upload_voice_for_recognition two_uploads "audio.wav" "zh_CN" fresh))
           (snd (upload_voice_for_recognition two_uploads "audio.wav" "en_US"
                   (snd (upload_voice_for_recognition two_uploads "audio.wav" "zh_CN" fresh))))
           "abc-123" "abc-456").
  - vm_compute. reflexivity.
  - vm_compute. reflexivity.
Defined.

Lemma convert_missing_input_witness :
  convert_audio_to_mp3 (pipeline []) "nothere.wav" None fresh
  = (Raise (ConversionError (FileNotFoundError "nothere.wav")), fresh) /\
  recognize_speech (pipeline []) "nothere.wav" "zh_CN" fresh
  = (Raise (SpeechError (ConversionError (FileNotFoundError "nothere.wav"))), fresh).
Proof.
  apply (convert_missing_input (pipeline []) "nothere.wav" "zh_CN" None fresh).
  apply (bool_decide_eq_false_1 _). vm_compute. reflexivity.
Defined.

Lemma recognize_restores_files_witness :
  files (snd (recognize_speech (pipeline [not_ready; not_ready; recognised])
                "audio.wav" "zh_CN" fresh))
  = files fresh.
Proof.
  apply (proj1 (proj2 (recognize_restores_files
                         (pipeline [not_ready; not_ready; recognised])
                         "audio.wav" "zh_CN" fresh converted "audio_converted.mp3"
                         ltac:(vm_compute; reflexivity)))).
  apply (bool_decide_eq_false_1 _). vm_compute. reflexivity.
Defined.

Lemma recognize_errors_witness :
  exists cause,
    SpeechError (QueryFailed 5 (RequestError "connection refused")) = SpeechError cause /\
    stage_error cause = true.
Proof.
  apply (recognize_errors (pipeline []) "audio.wav" "zh_CN" fresh
           (SpeechError (QueryFailed 5 (RequestError "connection refused")))).
  vm_compute. reflexivity.
Defined.

Lemma poll_returns_only_remote_text_witness :
  exists (token : json) (w1 : world) (k : nat) (fields : list (string * json))
         (evs : list (Z * event)),
    get_access_token (polling [not_ready; recognised]) (holding 100000) = (Ok token, w1) /\
    (k < Z.to_nat 5)%nat /\
    outcome (query_endpoint (polling [not_ready; recognised])
               (count is_query (trace w1) + k)) = HttpJson (JObj fields) /\
    Py.assoc "result" fields = Some (JStr "hello world") /\
    trace (snd (query_recognition_result (polling [not_ready; recognised])
                  "abc-123" "zh_CN" 5 1 (holding 100000)))
    = trace w1 ++ evs /\
    count is_query evs = S k /\
    exists t, last evs = Some (t, Query token "abc-123" "zh_CN").
Proof.
  apply (poll_returns_only_remote_text (polling [not_ready; recognised])
           "abc-123" "zh_CN" 5 1 (holding 100000)
           (snd (query_recognition_result (polling [not_ready; recognised])
                   "abc-123" "zh_CN" 5 1 (holding 100000)))
           (JStr "hello world")).
  vm_compute. reflexivity.
Defined.

(** C4 fails as stated: the export writes ["audio_converted.mp3"] and
    then raises, so [convert_audio_to_mp3] raises and [converted_audio]
    is never bound; the [finally] block removes nothing and the file,
    which was not there before the run, is there after it. *)
Lemma failed_export_leaves_artifact :
  ~ artifact_never_left export_fails "audio.wav" "zh_CN" fresh.
Proof.
  unfold artifact_never_left. intros Hclean. apply Hclean.
  - apply (bool_decide_eq_false_1 _). vm_compute. reflexivity.
  - apply (bool_decide_eq_true_1 _). vm_compute. reflexivity.
Qed.

(** C8 fails as stated: when the credential lookup raises, the call ends
    there, before line 107: no identifier is drawn and no submit request
    is sent. *)
Lemma failed_lookup_submits_nothing :
  ~ submits_exactly_once denied "audio.wav" "zh_CN" fresh /\
  fst (upload_voice_for_recognition denied "audio.wav" "zh_CN" fresh)
  = Raise (TokenError (TokenRejected (JStr "invalid appid"))) /\
  uuids (snd (upload_voice_for_recognition denied "audio.wav" "zh_CN" fresh)) = uuids fresh /\
  count is_upload (trace (snd (upload_voice_for_recognition denied "audio.wav" "zh_CN" fresh)))
  = 0%nat.
Proof.
  split; [|split; [|split]].
  - unfold submits_exactly_once. intros [Hdrawn _]. vm_compute in Hdrawn. discriminate.
  - vm_compute. reflexivity.
  - vm_compute. reflexivity.
  - vm_compute. reflexivity.
Qed.

(** An [expires_in] too large for a double: line 38 has stored the token
    when the sum of line 40 raises. *)
Example token_stored_before_overflow :
  let run := get_access_token
               (remote [JObj [("access_token", JStr "T2"); ("expires_in", JNum (10 ^ 400))]]
                       [] [] ExportOk)
               (holding 1200) in
  fst run = Raise (TokenError OverflowError) /\
  access_token (snd run) = JStr "T2" /\
  token_expire_time (snd run) = 1200.
Proof. vm_compute. repeat split. Qed.

End MoreRuns.
